(** * Asclepio Class: the live session orchestrator of [src/App.tsx]

    A shallow embedding of the React component's session logic: the
    message handler [onMessage], [handleArchiveNote], [startSession],
    [stopSession] and [generateSessionReportAndTitle], over the data
    types of [src/types.ts].

    Conventions.
    - A JavaScript string is held as the bytes of its UTF-8 encoding
      (Rocq's [string]); concatenation and the empty string are the
      same on both sides.
    - An optional property is an [option]; [None] is [undefined].
    - React state is the record [AppState]; the [useRef] cells are the
      record [Refs]; what the browser and the remote service answer
      (random identifiers, the clock, the microphone permission, the
      summarisation reply) is read from the record [Host], which also
      logs what the component sends out (prompts, utterances).
    - Every handler is a function of the whole [World], written in a
      small state monad. *)

From Stdlib Require Import ZArith Ascii String List.
From stdpp Require Import base option list strings gmap pretty.

Open Scope string_scope.
Open Scope list_scope.
Open Scope nat_scope.

(** ** Data model ([src/types.ts]) *)

Inductive NoteType := tip | qa | context.

Module Note.
Record t := mk {
  id : string;
  type : NoteType;
  content : string;
  question : option string;
  topic : option string;
}.
End Note.
Abbreviation Note := Note.t.

Module SessionRecord.
Record t := mk {
  id : string;
  title : string;
  date : Z;
  transcription : string;
  notes : list Note;
  report : string;
}.
End SessionRecord.
Abbreviation SessionRecord := SessionRecord.t.

(** ** Messages of the streaming channel (the fields [onMessage] reads) *)

Record FunctionCall := {
  name : string;
  args : gmap string string;
}.

Record Transcription := { text : option string }.

Record ServerContent := {
  inputTranscription : option Transcription;
  turnComplete : option bool;
}.

Record ToolCall := { functionCalls : option (list FunctionCall) }.

Record LiveServerMessage := {
  serverContent : option ServerContent;
  toolCall : option ToolCall;
}.

(** ** Tool declarations ([src/App.tsx], lines 9-11) *)

Record FunctionDeclaration := {
  fd_name : string;
  fd_properties : list string;
  fd_required : list string;
}.

Record Tool := { functionDeclarations : list FunctionDeclaration }.

Definition MAX_SESSION_TIME_SECONDS : Z := 600.

Definition addNoteFunctionDeclaration : FunctionDeclaration :=
  {| fd_name := "addNote"; fd_properties := ["tip"]; fd_required := ["tip"] |}.

Definition answerQuestionFunctionDeclaration : FunctionDeclaration :=
  {| fd_name := "answerQuestion";
     fd_properties := ["question"; "answer"];
     fd_required := ["question"; "answer"] |}.

Definition provideContextFunctionDeclaration : FunctionDeclaration :=
  {| fd_name := "provideContext";
     fd_properties := ["topic"; "explanation"];
     fd_required := ["topic"; "explanation"] |}.

(** ** The reply of the summarisation request

    [generateSessionReportAndTitle] awaits [ai.models.generateContent]
    and hands [response.text] to [JSON.parse]. The three ways this can
    go are the constructors of [Summary]; a parsed value is either
    [null] or a value whose properties can be read. The response schema
    types [title] and [report] as strings; a value that is not an object
    reads like an object without properties. *)

Inductive Json :=
  | JNull
  | JObject (props : gmap string string).

Inductive Summary :=
  | NetworkError
  | MalformedJSON
  | Parsed (result : Json).

(** ** State *)

Record AppState := {
  isListening : bool;
  transcription : string;
  notes : list Note;
  timeLeft : Z;
  error : option string;
  activeAiResponse : option Note;
  isGeneratingReport : bool;
  sessionHistory : list SessionRecord;
  viewingSession : option SessionRecord;
  isVoiceResponseEnabled : bool;
  isContextualizeEnabled : bool;
}.

(** What [startSession] passes to [ai.live.connect] (line 153): the
    declared tools, and the [onMessage] callback, which closes over the
    [speak] of the render that started the session and so over the
    voice setting of that moment. *)
Record LiveConnectParameters := {
  tools : list Tool;
  onmessage_voice : bool;
}.

(** The [useRef] cells. [sessionPromiseRef] keeps the parameters of
    the connection; the other cells only record whether a handle is
    held. *)
Record Refs := {
  sessionPromiseRef : option LiveConnectParameters;
  audioContextRef : bool;
  scriptProcessorRef : bool;
  mediaStreamRef : bool;
  timerIntervalRef : bool;
}.

(** The environment. The [_results] fields give the value returned by
    the k-th call of the corresponding platform function, the [_calls]
    fields count the calls made so far. *)
Record Host := {
  randomUUID_results : nat → string;
  randomUUID_calls : nat;
  Date_results : nat → Z;
  Date_calls : nat;
  toLocaleString : Z → string;
  getUserMedia_results : nat → bool;
  getUserMedia_calls : nat;
  generateContent_results : nat → Summary;
  prompts : list string;
  utterances : list string;
}.

Record World := {
  state : AppState;
  refs : Refs;
  host : Host;
}.

(** ** A state monad over [World] *)

Definition M (A : Type) : Type := World → A * World.

Definition ret {A} (a : A) : M A := λ w, (a, w).

Definition bind {A B} (m : M A) (k : A → M B) : M B :=
  λ w, let (a, w') := m w in k a w'.

Declare Scope js_scope.
Delimit Scope js_scope with js.
Notation "'let!' x ':=' m 'in' k" := (bind m (λ x, k))
  (at level 10, x name, m at level 100, k at level 200) : js_scope.
Notation "m ';;;' k" := (bind m (λ _, k))
  (at level 100, k at level 200, right associativity) : js_scope.
Open Scope js_scope.

Definition exec {A} (m : M A) (w : World) : World := snd (m w).

Definition getApp : M AppState := λ w, (state w, w).
Definition getRefs : M Refs := λ w, (refs w, w).

Definition modifyApp (f : AppState → AppState) : M unit :=
  λ w, (tt, {| state := f (state w); refs := refs w; host := host w |}).

Definition modifyRefs (f : Refs → Refs) : M unit :=
  λ w, (tt, {| state := state w; refs := f (refs w); host := host w |}).

Definition modifyHost (f : Host → Host) : M unit :=
  λ w, (tt, {| state := state w; refs := refs w; host := f (host w) |}).

Fixpoint forEach {A} (l : list A) (body : A → M unit) : M unit :=
  match l with
  | [] => ret tt
  | x :: l' => body x ;;; forEach l' body
  end.

(** ** Record updates

    [with_x f r] is [r] with its field [x] replaced by [f] of the old
    value. *)

Definition with_isListening (f : bool → bool) (s : AppState) : AppState :=
  {| isListening := f (isListening s); transcription := transcription s;
     notes := notes s; timeLeft := timeLeft s; error := error s;
     activeAiResponse := activeAiResponse s;
     isGeneratingReport := isGeneratingReport s;
     sessionHistory := sessionHistory s;
     viewingSession := viewingSession s;
     isVoiceResponseEnabled := isVoiceResponseEnabled s;
     isContextualizeEnabled := isContextualizeEnabled s |}.

Definition with_transcription (f : string → string) (s : AppState) : AppState :=
  {| isListening := isListening s; transcription := f (transcription s);
     notes := notes s; timeLeft := timeLeft s; error := error s;
     activeAiResponse := activeAiResponse s;
     isGeneratingReport := isGeneratingReport s;
     sessionHistory := sessionHistory s;
     viewingSession := viewingSession s;
     isVoiceResponseEnabled := isVoiceResponseEnabled s;
     isContextualizeEnabled := isContextualizeEnabled s |}.

Definition with_notes (f : list Note → list Note) (s : AppState) : AppState :=
  {| isListening := isListening s; transcription := transcription s;
     notes := f (notes s); timeLeft := timeLeft s; error := error s;
     activeAiResponse := activeAiResponse s;
     isGeneratingReport := isGeneratingReport s;
     sessionHistory := sessionHistory s;
     viewingSession := viewingSession s;
     isVoiceResponseEnabled := isVoiceResponseEnabled s;
     isContextualizeEnabled := isContextualizeEnabled s |}.

Definition with_timeLeft (f : Z → Z) (s : AppState) : AppState :=
  {| isListening := isListening s; transcription := transcription s;
     notes := notes s; timeLeft := f (timeLeft s); error := error s;
     activeAiResponse := activeAiResponse s;
     isGeneratingReport := isGeneratingReport s;
     sessionHistory := sessionHistory s;
     viewingSession := viewingSession s;
     isVoiceResponseEnabled := isVoiceResponseEnabled s;
     isContextualizeEnabled := isContextualizeEnabled s |}.

Definition with_error (f : option string → option string) (s : AppState) : AppState :=
  {| isListening := isListening s; transcription := transcription s;
     notes := notes s; timeLeft := timeLeft s; error := f (error s);
     activeAiResponse := activeAiResponse s;
     isGeneratingReport := isGeneratingReport s;
     sessionHistory := sessionHistory s;
     viewingSession := viewingSession s;
     isVoiceResponseEnabled := isVoiceResponseEnabled s;
     isContextualizeEnabled := isContextualizeEnabled s |}.

Definition with_activeAiResponse (f : option Note → option Note) (s : AppState) : AppState :=
  {| isListening := isListening s; transcription := transcription s;
     notes := notes s; timeLeft := timeLeft s; error := error s;
     activeAiResponse := f (activeAiResponse s);
     isGeneratingReport := isGeneratingReport s;
     sessionHistory := sessionHistory s;
     viewingSession := viewingSession s;
     isVoiceResponseEnabled := isVoiceResponseEnabled s;
     isContextualizeEnabled := isContextualizeEnabled s |}.

Definition with_isGeneratingReport (f : bool → bool) (s : AppState) : AppState :=
  {| isListening := isListening s; transcription := transcription s;
     notes := notes s; timeLeft := timeLeft s; error := error s;
     activeAiResponse := activeAiResponse s;
     isGeneratingReport := f (isGeneratingReport s);
     sessionHistory := sessionHistory s;
     viewingSession := viewingSession s;
     isVoiceResponseEnabled := isVoiceResponseEnabled s;
     isContextualizeEnabled := isContextualizeEnabled s |}.

Definition with_sessionHistory (f : list SessionRecord → list SessionRecord) (s : AppState) : AppState :=
  {| isListening := isListening s; transcription := transcription s;
     notes := notes s; timeLeft := timeLeft s; error := error s;
     activeAiResponse := activeAiResponse s;
     isGeneratingReport := isGeneratingReport s;
     sessionHistory := f (sessionHistory s);
     viewingSession := viewingSession s;
     isVoiceResponseEnabled := isVoiceResponseEnabled s;
     isContextualizeEnabled := isContextualizeEnabled s |}.

Definition with_viewingSession (f : option SessionRecord → option SessionRecord) (s : AppState) : AppState :=
  {| isListening := isListening s; transcription := transcription s;
     notes := notes s; timeLeft := timeLeft s; error := error s;
     activeAiResponse := activeAiResponse s;
     isGeneratingReport := isGeneratingReport s;
     sessionHistory := sessionHistory s;
     viewingSession := f (viewingSession s);
     isVoiceResponseEnabled := isVoiceResponseEnabled s;
     isContextualizeEnabled := isContextualizeEnabled s |}.

Definition with_isVoiceResponseEnabled (f : bool → bool) (s : AppState) : AppState :=
  {| isListening := isListening s; transcription := transcription s;
     notes := notes s; timeLeft := timeLeft s; error := error s;
     activeAiResponse := activeAiResponse s;
     isGeneratingReport := isGeneratingReport s;
     sessionHistory := sessionHistory s;
     viewingSession := viewingSession s;
     isVoiceResponseEnabled := f (isVoiceResponseEnabled s);
     isContextualizeEnabled := isContextualizeEnabled s |}.

Definition with_isContextualizeEnabled (f : bool → bool) (s : AppState) : AppState :=
  {| isListening := isListening s; transcription := transcription s;
     notes := notes s; timeLeft := timeLeft s; error := error s;
     activeAiResponse := activeAiResponse s;
     isGeneratingReport := isGeneratingReport s;
     sessionHistory := sessionHistory s;
     viewingSession := viewingSession s;
     isVoiceResponseEnabled := isVoiceResponseEnabled s;
     isContextualizeEnabled := f (isContextualizeEnabled s) |}.

Definition with_randomUUID_calls (f : nat → nat) (h : Host) : Host :=
  {| randomUUID_results := randomUUID_results h;
     randomUUID_calls := f (randomUUID_calls h);
     Date_results := Date_results h; Date_calls := Date_calls h;
     toLocaleString := toLocaleString h;
     getUserMedia_results := getUserMedia_results h;
     getUserMedia_calls := getUserMedia_calls h;
     generateContent_results := generateContent_results h;
     prompts := prompts h; utterances := utterances h |}.

Definition with_Date_calls (f : nat → nat) (h : Host) : Host :=
  {| randomUUID_results := randomUUID_results h;
     randomUUID_calls := randomUUID_calls h;
     Date_results := Date_results h; Date_calls := f (Date_calls h);
     toLocaleString := toLocaleString h;
     getUserMedia_results := getUserMedia_results h;
     getUserMedia_calls := getUserMedia_calls h;
     generateContent_results := generateContent_results h;
     prompts := prompts h; utterances := utterances h |}.

Definition with_getUserMedia_calls (f : nat → nat) (h : Host) : Host :=
  {| randomUUID_results := randomUUID_results h;
     randomUUID_calls := randomUUID_calls h;
     Date_results := Date_results h; Date_calls := Date_calls h;
     toLocaleString := toLocaleString h;
     getUserMedia_results := getUserMedia_results h;
     getUserMedia_calls := f (getUserMedia_calls h);
     generateContent_results := generateContent_results h;
     prompts := prompts h; utterances := utterances h |}.

Definition with_prompts (f : list string → list string) (h : Host) : Host :=
  {| randomUUID_results := randomUUID_results h;
     randomUUID_calls := randomUUID_calls h;
     Date_results := Date_results h; Date_calls := Date_calls h;
     toLocaleString := toLocaleString h;
     getUserMedia_results := getUserMedia_results h;
     getUserMedia_calls := getUserMedia_calls h;
     generateContent_results := generateContent_results h;
     prompts := f (prompts h); utterances := utterances h |}.

Definition with_utterances (f : list string → list string) (h : Host) : Host :=
  {| randomUUID_results := randomUUID_results h;
     randomUUID_calls := randomUUID_calls h;
     Date_results := Date_results h; Date_calls := Date_calls h;
     toLocaleString := toLocaleString h;
     getUserMedia_results := getUserMedia_results h;
     getUserMedia_calls := getUserMedia_calls h;
     generateContent_results := generateContent_results h;
     prompts := prompts h; utterances := f (utterances h) |}.

(** ** React state setters

    A setter takes an updater, as [setNotes(prev => ...)] does; a call
    with a plain value is the constant updater. *)

Definition setIsListening (b : bool) : M unit :=
  modifyApp (with_isListening (λ _, b)).

Definition setTranscription (f : string → string) : M unit :=
  modifyApp (with_transcription f).

Definition setNotes (f : list Note → list Note) : M unit :=
  modifyApp (with_notes f).

Definition setTimeLeft (f : Z → Z) : M unit :=
  modifyApp (with_timeLeft f).

Definition setError (e : option string) : M unit :=
  modifyApp (with_error (λ _, e)).

Definition setActiveAiResponse (n : option Note) : M unit :=
  modifyApp (with_activeAiResponse (λ _, n)).

Definition setIsGeneratingReport (b : bool) : M unit :=
  modifyApp (with_isGeneratingReport (λ _, b)).

Definition setSessionHistory (f : list SessionRecord → list SessionRecord) : M unit :=
  modifyApp (with_sessionHistory f).

Definition setViewingSession (v : option SessionRecord) : M unit :=
  modifyApp (with_viewingSession (λ _, v)).

Definition setIsContextualizeEnabled (b : bool) : M unit :=
  modifyApp (with_isContextualizeEnabled (λ _, b)).

Definition setIsVoiceResponseEnabled (b : bool) : M unit :=
  modifyApp (with_isVoiceResponseEnabled (λ _, b)).

(** ** Platform calls *)

(** [crypto.randomUUID()] *)
Definition randomUUID : M string :=
  λ w, (randomUUID_results (host w) (randomUUID_calls (host w)),
        {| state := state w; refs := refs w;
           host := with_randomUUID_calls S (host w) |}).

(** [Date.now()], also the time value of [new Date()] *)
Definition Date_now : M Z :=
  λ w, (Date_results (host w) (Date_calls (host w)),
        {| state := state w; refs := refs w;
           host := with_Date_calls S (host w) |}).

(** [new Date().toLocaleString()] *)
Definition new_Date_toLocaleString : M string :=
  let! t := Date_now in
  λ w, (toLocaleString (host w) t, w).

(** [navigator.mediaDevices.getUserMedia({ audio: true })]: [true] when
    the stream is granted, [false] when the promise rejects. *)
Definition getUserMedia : M bool :=
  λ w, (getUserMedia_results (host w) (getUserMedia_calls (host w)),
        {| state := state w; refs := refs w;
           host := with_getUserMedia_calls S (host w) |}).

(** [ai.models.generateContent] followed by [JSON.parse(response.text)]:
    the prompt is logged, the reply is the next one the host holds. *)
Definition generateContent (prompt : string) : M Summary :=
  λ w, (generateContent_results (host w) (length (prompts (host w))),
        {| state := state w; refs := refs w;
           host := with_prompts (λ ps, ps ++ [prompt]) (host w) |}).

(** [window.speechSynthesis.speak(utterance)]; only the text of the
    utterance is kept. *)
Definition speechSynthesis_speak (txt : string) : M unit :=
  modifyHost (with_utterances (λ us, us ++ [txt])).

(** ** JavaScript values *)

(** String conversion of an optional string, as [+] and template
    literals perform it. *)
Definition js_string (o : option string) : string :=
  match o with Some s => s | None => "undefined" end.

(** The value of a property when it is truthy: a string that is not
    empty. *)
Definition truthy (o : option string) : option string :=
  match o with
  | Some s => if String.eqb s "" then None else Some s
  | None => None
  end.

(** ** [speak] (lines 64-73)

    [isVoiceResponseEnabled] is the value the callback closed over. *)

Definition speak (isVoiceResponseEnabled : bool) (txt : string) : M unit :=
  if negb isVoiceResponseEnabled then ret tt
  else speechSynthesis_speak txt.

(** ** [onMessage] (lines 130-148) *)

(** The body of the loop over [message.toolCall.functionCalls]. Each
    guard [fc.name === ... && fc.args.x (&& fc.args.y)] yields the
    values of the arguments it tested when it holds. [voice] is the
    voice setting [speak] closed over. *)
Definition handleFunctionCall (voice : bool) (fc : FunctionCall) : M unit :=
  match (if String.eqb (name fc) "addNote" then truthy (args fc !! "tip") else None) with
  | Some a_tip =>
      let! uuid := randomUUID in
      let newNote := Note.mk uuid tip a_tip None None in
      setNotes (λ prev, prev ++ [newNote]) ;;;
      speak voice ("Nota añadida: " +:+ Note.content newNote)
  | None =>
  match (if String.eqb (name fc) "answerQuestion"
         then match truthy (args fc !! "question"), truthy (args fc !! "answer") with
              | Some q, Some a => Some (q, a)
              | _, _ => None
              end
         else None) with
  | Some (a_question, a_answer) =>
      let! uuid := randomUUID in
      let newNote := Note.mk uuid qa a_answer (Some a_question) None in
      setActiveAiResponse (Some newNote) ;;;
      speak voice (Note.content newNote)
  | None =>
  match (if String.eqb (name fc) "provideContext"
         then match truthy (args fc !! "topic"), truthy (args fc !! "explanation") with
              | Some t, Some e => Some (t, e)
              | _, _ => None
              end
         else None) with
  | Some (a_topic, a_explanation) =>
      let! uuid := randomUUID in
      let newNote := Note.mk uuid context a_explanation None (Some a_topic) in
      setActiveAiResponse (Some newNote) ;;;
      speak voice (js_string (Note.topic newNote) +:+ ": " +:+ Note.content newNote)
  | None => ret tt
  end end end.

Definition onMessage (voice : bool) (message : LiveServerMessage) : M unit :=
  (match serverContent message ≫= inputTranscription with
   | Some tr => setTranscription (λ prev, prev +:+ js_string (text tr))
   | None => ret tt
   end) ;;;
  (match serverContent message ≫= turnComplete with
   | Some true => setTranscription (λ prev, prev +:+ " ")
   | _ => ret tt
   end) ;;;
  (match toolCall message ≫= functionCalls with
   | Some fcs => forEach fcs (handleFunctionCall voice)
   | None => ret tt
   end).

(** ** [handleArchiveNote] (line 166) *)

Definition handleArchiveNote : M unit :=
  let! s := getApp in
  match activeAiResponse s with
  | Some a => setNotes (λ prev, prev ++ [a]) ;;; setActiveAiResponse None
  | None => ret tt
  end.

(** ** [String.prototype.trim]

    [trim] removes, at both ends, the code points ECMAScript calls
    WhiteSpace or LineTerminator. They are listed by their UTF-8
    encodings. *)

Definition utf8 (bytes : list nat) : list ascii := map ascii_of_nat bytes.

Definition whiteSpace : list (list ascii) :=
  map utf8
    [ [9]; [10]; [11]; [12]; [13]; [32];          (* TAB LF VT FF CR SP *)
      [194; 160];                                  (* U+00A0 *)
      [225; 154; 128];                             (* U+1680 *)
      [226; 128; 128]; [226; 128; 129]; [226; 128; 130]; [226; 128; 131];
      [226; 128; 132]; [226; 128; 133]; [226; 128; 134]; [226; 128; 135];
      [226; 128; 136]; [226; 128; 137]; [226; 128; 138];  (* U+2000..U+200A *)
      [226; 128; 168]; [226; 128; 169];            (* U+2028 U+2029 *)
      [226; 128; 175];                             (* U+202F *)
      [226; 129; 159];                             (* U+205F *)
      [227; 128; 128];                             (* U+3000 *)
      [239; 187; 191] ].                           (* U+FEFF *)

Fixpoint strip_prefix (p l : list ascii) : option (list ascii) :=
  match p, l with
  | [], _ => Some l
  | a :: p', b :: l' => if Ascii.eqb a b then strip_prefix p' l' else None
  | _ :: _, [] => None
  end.

Fixpoint strip_first (tbl : list (list ascii)) (l : list ascii) : option (list ascii) :=
  match tbl with
  | [] => None
  | p :: tbl' =>
      match strip_prefix p l with
      | Some r => Some r
      | None => strip_first tbl' l
      end
  end.

Fixpoint strip_all (fuel : nat) (tbl : list (list ascii)) (l : list ascii) : list ascii :=
  match fuel with
  | O => l
  | S fuel' =>
      match strip_first tbl l with
      | Some r => strip_all fuel' tbl r
      | None => l
      end
  end.

Definition trimStart_bytes (l : list ascii) : list ascii :=
  strip_all (length l) whiteSpace l.

Definition trimEnd_bytes (l : list ascii) : list ascii :=
  rev (strip_all (length l) (map (@rev ascii) whiteSpace) (rev l)).

Definition trim (s : string) : string :=
  string_of_list_ascii (trimEnd_bytes (trimStart_bytes (list_ascii_of_string s))).

(** A byte string made of white space only. *)
Inductive blank_bytes : list ascii → Prop :=
  | blank_nil : blank_bytes []
  | blank_cons p l : p ∈ whiteSpace → blank_bytes l → blank_bytes (p ++ l).

Definition whitespace_only (s : string) : Prop :=
  blank_bytes (list_ascii_of_string s).

(** ** [generateSessionReportAndTitle] (lines 75-94) *)

Inductive Completion (A : Type) :=
  | Return (a : A)
  | Throw.
Arguments Return {A} a.
Arguments Throw {A}.

Definition try_catch {A} (body handler : M (Completion A)) : M (Completion A) :=
  let! r := body in
  match r with
  | Return a => ret (Return a)
  | Throw => handler
  end.

Record TitleAndReport := { title : string; report : string }.

Definition LF : string := String (ascii_of_nat 10) "".
Definition DQUOTE : string := String (ascii_of_nat 34) "".

Fixpoint join (sep : string) (l : list string) : string :=
  match l with
  | [] => ""
  | [x] => x
  | x :: l' => x +:+ sep +:+ join sep l'
  end.

Definition note_line (n : Note) : string :=
  "- " +:+
  match Note.type n with
  | qa => "P: " +:+ js_string (Note.question n) +:+ " R: " +:+ Note.content n
  | _ => Note.content n
  end.

Definition report_prompt (finalTranscription : string) (finalNotes : list Note) : string :=
  "Basado en la siguiente transcripción y notas de una clase o reunión, genera un título conciso (máximo 10 palabras) y un informe completo en formato Markdown. El informe debe estructurar la información clave, los conceptos principales discutidos, las preguntas respondidas y las tareas o puntos importantes a recordar."
  +:+ LF +:+ LF +:+ "Transcripción:" +:+ LF +:+ DQUOTE +:+ finalTranscription +:+ DQUOTE
  +:+ LF +:+ LF +:+ "Notas Tomadas:" +:+ LF +:+ join LF (map note_line finalNotes).

(** The client object of line 77 is built outside the [try]; its
    constructor is taken to return. *)
Definition generateSessionReportAndTitle
    (finalTranscription : string) (finalNotes : list Note) : M (Completion TitleAndReport) :=
  if String.eqb (trim finalTranscription) "" then
    let! d := new_Date_toLocaleString in
    ret (Return {| title := "Sesión del " +:+ d;
                   report := "No se grabó ninguna transcripción." |})
  else
    try_catch
      (let prompt := report_prompt finalTranscription finalNotes in
       let! response := generateContent prompt in
       match response with
       | NetworkError => ret Throw
       | MalformedJSON => ret Throw
       | Parsed JNull => ret Throw
       | Parsed (JObject result) =>
           let! t := match truthy (result !! "title") with
                     | Some t => ret t
                     | None => let! d := new_Date_toLocaleString in
                               ret ("Sesión del " +:+ d)
                     end in
           let r := match truthy (result !! "report") with
                    | Some r => r
                    | None => "No se pudo generar el informe."
                    end in
           ret (Return {| title := t; report := r |})
       end)
      (let! d := new_Date_toLocaleString in
       ret (Return {| title := "Sesión del " +:+ d +:+ " (Error)";
                      report := "Ocurrió un error al generar el informe de la sesión." |})).

(** ** [stopSession] (lines 96-119)

    Lines 97-102 release the timer, the channel and the audio handles;
    the cells themselves are cleared at line 113. The callback reads
    [transcription], [notes] and [activeAiResponse] of the render that
    created it: the instance bound to the stop button and to the
    timeout effect is the one of the current render. *)

Definition clearRefs : M unit :=
  modifyRefs (λ _,
    {| sessionPromiseRef := None; audioContextRef := false;
       scriptProcessorRef := false; mediaStreamRef := false;
       timerIntervalRef := false |}).

Definition stopSession : M (Completion unit) :=
  setIsGeneratingReport true ;;;
  let! s := getApp in
  let finalTranscription := transcription s in
  let finalNotes := match activeAiResponse s with
                    | Some a => notes s ++ [a]
                    | None => notes s
                    end in
  let! r := generateSessionReportAndTitle finalTranscription finalNotes in
  match r with
  | Throw => ret Throw
  | Return tr =>
      let! uuid := randomUUID in
      let! now := Date_now in
      let newRecord :=
        SessionRecord.mk uuid (title tr) now finalTranscription finalNotes (report tr) in
      setSessionHistory (λ prev, newRecord :: prev) ;;;
      clearRefs ;;;
      setIsListening false ;;;
      setIsGeneratingReport false ;;;
      setTranscription (λ _, "") ;;;
      setNotes (λ _, []) ;;;
      setActiveAiResponse None ;;;
      ret (Return tt)
  end.

(** ** [startSession] (lines 123-163) *)

(** Line 124. *)
Definition startSession_reset : M unit :=
  setError None ;;;
  setTranscription (λ _, "") ;;;
  setNotes (λ _, []) ;;;
  setActiveAiResponse None ;;;
  setTimeLeft (λ _, MAX_SESSION_TIME_SECONDS) ;;;
  setIsListening true ;;;
  setViewingSession None.

(** Lines 150-151. *)
Definition session_tools (contextualize : bool) : list Tool :=
  [ {| functionDeclarations :=
         ([addNoteFunctionDeclaration; answerQuestionFunctionDeclaration]
          ++ (if contextualize then [provideContextFunctionDeclaration] else [])) |} ].

(** Lines 125-162: the [try] block and its [catch]. Once the
    microphone stream is granted the remaining set-up is taken to
    succeed. *)
Definition startSession_acquire : M unit :=
  let! granted := getUserMedia in
  if granted then
    let! s := getApp in
    let tools := session_tools (isContextualizeEnabled s) in
    modifyRefs (λ _,
      {| sessionPromiseRef :=
           Some {| tools := tools; onmessage_voice := isVoiceResponseEnabled s |};
         audioContextRef := true;
         scriptProcessorRef := true; mediaStreamRef := true;
         timerIntervalRef := true |})
  else
    setError (Some "No se pudo acceder al micrófono.") ;;;
    setIsListening false.

Definition startSession : M unit :=
  startSession_reset ;;; startSession_acquire.

(** The names of the functions declared to the channel of the running
    session. *)
Definition declared_names (r : Refs) : list string :=
  match sessionPromiseRef r with
  | Some c => map fd_name (concat (map functionDeclarations (tools c)))
  | None => []
  end.

(** ** The countdown (lines 121 and 161) *)

Definition tick : M unit :=
  let! r := getRefs in
  if timerIntervalRef r then setTimeLeft (λ prev, prev - 1)%Z else ret tt.

Definition timeoutEffect : M (Completion unit) :=
  let! s := getApp in
  if isListening s && (timeLeft s <=? 0)%Z then stopSession else ret (Return tt).

(** ** The settings toggles (lines 289 and 291) *)

(** The context toggle is disabled while listening. *)
Definition toggleContextualize : M unit :=
  let! s := getApp in
  if isListening s then ret tt
  else setIsContextualizeEnabled (negb (isContextualizeEnabled s)).

Definition toggleVoiceResponse : M unit :=
  let! s := getApp in
  setIsVoiceResponseEnabled (negb (isVoiceResponseEnabled s)).

(** ** The orchestrator as a transition system *)

Inductive Event :=
  | ClickMainButton
  | Message (m : LiveServerMessage)
  | ArchiveNote
  | TimerTick
  | ToggleContextualize
  | ToggleVoiceResponse.

(** Line 203: the main button stops a session that is listening and
    starts one otherwise. A message is delivered only through the
    callbacks of a connected channel. *)
Definition step (e : Event) (w : World) : World :=
  match e with
  | ClickMainButton =>
      if isListening (state w) then exec stopSession w else exec startSession w
  | Message m =>
      match sessionPromiseRef (refs w) with
      | Some c => exec (onMessage (onmessage_voice c) m) w
      | None => w
      end
  | ArchiveNote => exec handleArchiveNote w
  | TimerTick => exec (tick ;;; timeoutEffect) w
  | ToggleContextualize => exec toggleContextualize w
  | ToggleVoiceResponse => exec toggleVoiceResponse w
  end.

Definition run (es : list Event) (w : World) : World :=
  fold_left (λ w e, step e w) es w.

(** ** Identifiers

    [crypto.randomUUID] is taken to produce identifiers that are new:
    every identifier the host will still hand out differs from the
    others and from the ones the state holds. *)

Definition note_ids (s : AppState) : list string :=
  map Note.id (notes s ++ option_list (activeAiResponse s)).

Definition known_ids (s : AppState) : list string :=
  note_ids s ++ map SessionRecord.id (sessionHistory s).

Definition fresh_supply (w : World) : Prop :=
  ∀ k : nat, randomUUID_calls (host w) ≤ k →
    (randomUUID_results (host w) k ∉ known_ids (state w)) ∧
    (∀ j : nat, randomUUID_calls (host w) ≤ j →
      randomUUID_results (host w) j = randomUUID_results (host w) k → j = k).

Definition Inv (w : World) : Prop :=
  fresh_supply w ∧ NoDup (note_ids (state w)).

(** The state after mounting: the [useState] defaults, the history as
    read from local storage (lines 51-56), no handle held. *)
Definition mounted (w : World) : Prop :=
  isListening (state w) = false ∧ transcription (state w) = "" ∧
  notes (state w) = [] ∧ timeLeft (state w) = MAX_SESSION_TIME_SECONDS ∧
  error (state w) = None ∧ activeAiResponse (state w) = None ∧
  isGeneratingReport (state w) = false ∧ viewingSession (state w) = None ∧
  isVoiceResponseEnabled (state w) = false ∧
  isContextualizeEnabled (state w) = true ∧
  sessionPromiseRef (refs w) = None ∧
  fresh_supply w.

Inductive reachable : World → Prop :=
  | reachable_mounted w : mounted w → reachable w
  | reachable_step e w : reachable w → reachable (step e w).

(** ** The events of the channel

    The shapes of [LiveServerMessage] that carry one kind of event. *)

Definition transcript_delta (t : string) : LiveServerMessage :=
  {| serverContent :=
       Some {| inputTranscription := Some {| text := Some t |};
               turnComplete := None |};
     toolCall := None |}.

Definition turn_complete : LiveServerMessage :=
  {| serverContent :=
       Some {| inputTranscription := None; turnComplete := Some true |};
     toolCall := None |}.

Definition tool_call (fcs : list FunctionCall) : LiveServerMessage :=
  {| serverContent := None;
     toolCall := Some {| functionCalls := Some fcs |} |}.

Inductive TranscriptEvent :=
  | Delta (t : string)
  | TurnComplete.

Definition transcript_message (e : TranscriptEvent) : LiveServerMessage :=
  match e with
  | Delta t => transcript_delta t
  | TurnComplete => turn_complete
  end.

(** What an event contributes to the transcript. *)
Definition fragment (e : TranscriptEvent) : string :=
  match e with
  | Delta t => t
  | TurnComplete => " "
  end.

Fixpoint concat_strings (l : list string) : string :=
  match l with
  | [] => ""
  | s :: l' => s +:+ concat_strings l'
  end.

(** The invocations a message carries. *)
Definition calls_of (m : LiveServerMessage) : list FunctionCall :=
  match toolCall m ≫= functionCalls with
  | Some fcs => fcs
  | None => []
  end.

(** ** Tool calls and their arguments *)

(** The argument [k] is given and is the non-empty string [v]. *)
Definition present (fc : FunctionCall) (k v : string) : Prop :=
  args fc !! k = Some v ∧ v ≠ "".

Definition is_addNote (fc : FunctionCall) (t : string) : Prop :=
  name fc = "addNote" ∧ present fc "tip" t.

Definition is_answerQuestion (fc : FunctionCall) (q a : string) : Prop :=
  name fc = "answerQuestion" ∧ present fc "question" q ∧ present fc "answer" a.

Definition is_provideContext (fc : FunctionCall) (t e : string) : Prop :=
  name fc = "provideContext" ∧ present fc "topic" t ∧ present fc "explanation" e.

Definition all_declarations : list FunctionDeclaration :=
  [addNoteFunctionDeclaration; answerQuestionFunctionDeclaration;
   provideContextFunctionDeclaration].

(** The call names declaration [fd] and gives every field [fd]
    requires. *)
Definition matches (fd : FunctionDeclaration) (fc : FunctionCall) : bool :=
  String.eqb (fd_name fd) (name fc) &&
  forallb (λ k, bool_decide (is_Some (args fc !! k))) (fd_required fd).

(** A call with a name that is not declared, or that lacks a field its
    declaration requires. *)
Definition malformed (fc : FunctionCall) : bool :=
  negb (existsb (λ fd, matches fd fc) all_declarations).


(** The identifier the next call of [crypto.randomUUID] returns. *)
Definition next_uuid (w : World) : string :=
  randomUUID_results (host w) (randomUUID_calls (host w)).

(** The tip notes made from [tips], numbered from the [k]-th
    identifier of the host on. *)
Fixpoint tip_notes (uuids : nat → string) (k : nat) (tips : list string) : list Note :=
  match tips with
  | [] => []
  | t :: tips' => Note.mk (uuids k) tip t None None :: tip_notes uuids (S k) tips'
  end.

(** The host after [speak txt], for a voice setting [voice]. *)
Definition spoken (voice : bool) (txt : string) (h : Host) : Host :=
  if voice then with_utterances (λ us, us ++ [txt]) h else h.

(** The local rendering of the clock value the next [new Date()]
    holds, and the titles built from it. *)
Definition next_date_string (w : World) : string :=
  toLocaleString (host w) (Date_results (host w) (Date_calls (host w))).

Definition timestamp_title (w : World) : string :=
  "Sesión del " +:+ next_date_string w.

Definition error_title (w : World) : string :=
  "Sesión del " +:+ next_date_string w +:+ " (Error)".

Definition error_report : string :=
  "Ocurrió un error al generar el informe de la sesión.".

(** ** Sample data *)

Definition sample_host (reply : Summary) : Host :=
  {| randomUUID_results := λ k, pretty k;
     randomUUID_calls := 0;
     Date_results := λ k, (1700000000000 + Z.of_nat k)%Z;
     Date_calls := 0;
     toLocaleString := λ t, pretty t;
     getUserMedia_results := λ _, true;
     getUserMedia_calls := 0;
     generateContent_results := λ _, reply;
     prompts := [];
     utterances := [] |}.

Definition sample_state (contextualize : bool) : AppState :=
  {| isListening := false; transcription := ""; notes := [];
     timeLeft := MAX_SESSION_TIME_SECONDS; error := None;
     activeAiResponse := None; isGeneratingReport := false;
     sessionHistory := []; viewingSession := None;
     isVoiceResponseEnabled := false;
     isContextualizeEnabled := contextualize |}.

Definition no_refs : Refs :=
  {| sessionPromiseRef := None; audioContextRef := false;
     scriptProcessorRef := false; mediaStreamRef := false;
     timerIntervalRef := false |}.

Definition sample_world (contextualize : bool) (reply : Summary) : World :=
  {| state := sample_state contextualize; refs := no_refs;
     host := sample_host reply |}.

Definition call_addNote (t : string) : FunctionCall :=
  {| name := "addNote"; args := {[ "tip" := t ]} |}.

Definition call_answerQuestion (q a : string) : FunctionCall :=
  {| name := "answerQuestion"; args := {[ "question" := q; "answer" := a ]} |}.

Definition call_provideContext (t e : string) : FunctionCall :=
  {| name := "provideContext"; args := {[ "topic" := t; "explanation" := e ]} |}.


(** ** [formatTime] (line 165) *)

(** [Number.prototype.toString] of an integer. *)
Definition Number_toString (n : Z) : string := pretty n.

(** The first [n] characters of [fill] repeated for ever; [rest] is
    what is left of the copy being read. *)
Fixpoint string_filler (n : nat) (fill rest : string) : string :=
  match n with
  | O => ""
  | S n' =>
      match rest with
      | String c rest' => String c (string_filler n' fill rest')
      | EmptyString =>
          match fill with
          | String c rest' => String c (string_filler n' fill rest')
          | EmptyString => ""
          end
      end
  end.

(** [String.prototype.padStart]. Lengths are counted in bytes, which
    are the code units of the ASCII strings it is applied to. *)
Definition padStart (s : string) (targetLength : nat) (padString : string) : string :=
  if targetLength <=? String.length s then s
  else if String.eqb padString "" then s
  else string_filler (targetLength - String.length s) padString padString +:+ s.

(** [seconds] is an integer: [Math.floor(seconds / 60)] is the floor
    quotient and [seconds % 60] the remainder with the sign of
    [seconds]. *)
Definition formatTime (seconds : Z) : string :=
  padStart (Number_toString (seconds / 60)%Z) 2 "0" +:+ ":" +:+
  padStart (Number_toString (Z.rem seconds 60)) 2 "0".

(** The decimal digit [k] and the two-digit rendering of [n]. *)
Definition digit (k : Z) : ascii := ascii_of_nat (48 + Z.to_nat k).

Definition two_digits (n : Z) : string :=
  String (digit (n / 10)%Z) (String (digit (n mod 10)%Z) "").

(** ** [sessionHistoryView] (lines 229-230): the notes of the two tabs *)

Definition filteredQA (viewingSession : SessionRecord) : list Note :=
  List.filter (λ n, match Note.type n with qa => true | _ => false end)
    (SessionRecord.notes viewingSession).

Definition filteredNotes (viewingSession : SessionRecord) : list Note :=
  List.filter (λ n, match Note.type n with tip | context => true | qa => false end)
    (SessionRecord.notes viewingSession).

(** ** Runs from a fresh mount *)

(** The handles a running session holds (lines 127-161). *)
Definition running_refs (c : LiveConnectParameters) : Refs :=
  {| sessionPromiseRef := Some c; audioContextRef := true;
     scriptProcessorRef := true; mediaStreamRef := true;
     timerIntervalRef := true |}.

(** The component right after mounting: every [useRef] cell is
    [null]. *)
Definition fresh_mount (w : World) : Prop :=
  mounted w ∧ refs w = no_refs.

(** The worlds a mounted component gets to. *)
Definition reached (w : World) : Prop :=
  ∃ w0 es, fresh_mount w0 ∧ w = run es w0.

(** What holds between the listening flag, the handles, the declared
    tools and the countdown. *)
Definition session_consistent (w : World) : Prop :=
  isGeneratingReport (state w) = false ∧
  if isListening (state w) then
    (∃ c, refs w = running_refs c ∧
          tools c = session_tools (isContextualizeEnabled (state w))) ∧
    (0 < timeLeft (state w) ≤ 600)%Z
  else
    refs w = no_refs ∧ (0 ≤ timeLeft (state w) ≤ 600)%Z.

(** The fields of the React state no message touches. *)
Definition same_session_fields (s s' : AppState) : Prop :=
  isListening s' = isListening s ∧ timeLeft s' = timeLeft s ∧
  error s' = error s ∧ isGeneratingReport s' = isGeneratingReport s ∧
  sessionHistory s' = sessionHistory s ∧ viewingSession s' = viewingSession s ∧
  isVoiceResponseEnabled s' = isVoiceResponseEnabled s ∧
  isContextualizeEnabled s' = isContextualizeEnabled s.

(** ** [liveSessionView] (lines 212-222): which panel is shown *)



(** ** [sessionHistoryView] (line 244): the report as HTML

    [report.replace(/\n/g, '<br />')], the string that is handed to
    [dangerouslySetInnerHTML]. *)
Fixpoint report_html (report : string) : string :=
  match report with
  | EmptyString => ""
  | String c rest =>
      if Ascii.eqb c (ascii_of_nat 10) then "<br />" +:+ report_html rest
      else String c (report_html rest)
  end.

(** The number of line feeds of a string. *)
Fixpoint count_LF (s : string) : nat :=
  match s with
  | EmptyString => 0
  | String c rest => (if Ascii.eqb c (ascii_of_nat 10) then 1 else 0) + count_LF rest
  end.

(** ** [renderNote] (lines 169-195): the texts of a note card

    [expandedNotes] maps identifiers to booleans; an identifier that is
    not a key reads [undefined], which is falsy and whose negation is
    [true]. *)

Record RenderedNote := {
  rn_heading : option string;
  rn_button : option string;
  rn_body : option string;
}.

Definition isExpanded (expandedNotes : gmap string bool) (note : Note) : bool :=
  default false (expandedNotes !! Note.id note).

Definition renderNote (expandedNotes : gmap string bool) (note : Note) (isArchived : bool)
    : RenderedNote :=
  let shouldBeExpandable :=
    isArchived && match Note.type note with qa | context => true | tip => false end in
  {| rn_heading :=
       match Note.type note with
       | tip => Some (Note.content note)
       | context => Note.topic note
       | qa => Note.question note
       end;
     rn_button :=
       if shouldBeExpandable then
         Some ((if isExpanded expandedNotes note then "Ocultar" else "Mostrar") +:+ " " +:+
               match Note.type note with qa => "respuesta" | _ => "explicación" end)
       else None;
     rn_body :=
       if shouldBeExpandable then
         if isExpanded expandedNotes note then Some (Note.content note) else None
       else
         match Note.type note with
         | tip => None
         | _ => Some (Note.content note)
         end |}.

(** The click handler of the button (line 185). *)
Definition toggleExpanded (note : Note) (expandedNotes : gmap string bool)
    : gmap string bool :=
  <[Note.id note := negb (isExpanded expandedNotes note)]> expandedNotes.

(** ** Outside a session *)


(** ** Well-formed notes *)

(** A note as [onMessage] makes them: a content that is not empty, a
    question for a qa note only and a topic for a context note only,
    neither of them empty. *)
Definition well_formed_note (n : Note) : Prop :=
  Note.content n ≠ "" ∧
  match Note.type n with
  | tip => Note.question n = None ∧ Note.topic n = None
  | qa => (∃ q, Note.question n = Some q ∧ q ≠ "") ∧ Note.topic n = None
  | context => Note.question n = None ∧ ∃ t, Note.topic n = Some t ∧ t ≠ ""
  end.

Definition well_formed_notes (w : World) : Prop :=
  Forall well_formed_note (notes (state w)) ∧
  ∀ a, activeAiResponse (state w) = Some a → well_formed_note a ∧ Note.type a ≠ tip.

(** ** Sample data: a host that refuses the microphone *)

Definition refusing_world : World :=
  {| state := sample_state true; refs := no_refs;
     host := {| randomUUID_results := λ k, pretty k; randomUUID_calls := 0;
                Date_results := λ k, (1700000000000 + Z.of_nat k)%Z; Date_calls := 0;
                toLocaleString := λ t, pretty t;
                getUserMedia_results := λ _, false; getUserMedia_calls := 0;
                generateContent_results := λ _, NetworkError;
                prompts := []; utterances := [] |} |}.

(** * Properties *)

(** ** The monad *)

Lemma exec_bind {A B} (m : M A) (k : A → M B) w :
  exec (bind m k) w = exec (k (m w).1) (exec m w).
Proof. unfold exec, bind. destruct (m w) as [a w1]. reflexivity. Qed.

Lemma exec_seq {A B} (m : M A) (k : M B) w :
  exec (m ;;; k) w = exec k (exec m w).
Proof. apply exec_bind. Qed.

Lemma exec_ret {A} (a : A) w : exec (ret a) w = w.
Proof. reflexivity. Qed.

Lemma world_eta w : {| state := state w; refs := refs w; host := host w |} = w.
Proof. destruct w. reflexivity. Qed.

(** ** Truthiness *)

Lemma truthy_Some o s : truthy o = Some s ↔ o = Some s ∧ s ≠ "".
Proof.
  destruct o as [x|]; simpl.
  - destruct (String.eqb_spec x "") as [->|Hx]; split.
    + discriminate.
    + intros [[= <-] Hs]. congruence.
    + intros [= <-]. auto.
    + intros [[= <-] _]. reflexivity.
  - split; [discriminate | intros [[=] _]].
Qed.

Lemma truthy_present fc k v : present fc k v → truthy (args fc !! k) = Some v.
Proof. intros H. apply truthy_Some, H. Qed.

(** ** The sample calls are well formed *)

Example call_addNote_valid : is_addNote (call_addNote "repasar") "repasar".
Proof. repeat split; discriminate || reflexivity. Qed.

Example call_answerQuestion_valid :
  is_answerQuestion (call_answerQuestion "¿Qué es X?" "Y") "¿Qué es X?" "Y".
Proof. repeat split; discriminate || reflexivity. Qed.

Example call_provideContext_valid :
  is_provideContext (call_provideContext "Sepsis" "Respuesta desregulada")
    "Sepsis" "Respuesta desregulada".
Proof. repeat split; discriminate || reflexivity. Qed.

Example call_without_tip_malformed :
  malformed {| name := "addNote"; args := ∅ |} = true ∧
  malformed {| name := "answerQuestion"; args := {[ "answer" := "Y" ]} |} = true ∧
  malformed {| name := "deleteNote"; args := {[ "tip" := "t" ]} |} = true ∧
  malformed (call_addNote "repasar") = false.
Proof. repeat split; reflexivity. Qed.

(** ** What [handleFunctionCall] does, guard by guard *)

Lemma speak_eq voice txt w :
  speak voice txt w = (tt, {| state := state w; refs := refs w;
                              host := spoken voice txt (host w) |}).
Proof.
  unfold speak, spoken. destruct voice; cbn; [reflexivity|].
  unfold ret. rewrite world_eta. reflexivity.
Qed.

Lemma handle_addNote voice fc t w :
  is_addNote fc t →
  handleFunctionCall voice fc w =
    (tt, {| state := with_notes (λ prev, prev ++ [Note.mk (next_uuid w) tip t None None]) (state w);
            refs := refs w;
            host := spoken voice ("Nota añadida: " +:+ t)
                      (with_randomUUID_calls S (host w)) |}).
Proof.
  intros [Hn Ht]. unfold handleFunctionCall. rewrite Hn.
  cbn [String.eqb Ascii.eqb Bool.eqb]. rewrite (truthy_present _ _ _ Ht).
  unfold bind at 1. cbn [randomUUID]. unfold bind. cbn [setNotes modifyApp].
  rewrite speak_eq. reflexivity.
Qed.

Lemma handle_answerQuestion voice fc q a w :
  is_answerQuestion fc q a →
  handleFunctionCall voice fc w =
    (tt, {| state := with_activeAiResponse
                       (λ _, Some (Note.mk (next_uuid w) qa a (Some q) None)) (state w);
            refs := refs w;
            host := spoken voice a
                      (with_randomUUID_calls S (host w)) |}).
Proof.
  intros (Hn & Hq & Ha). unfold handleFunctionCall. rewrite Hn.
  cbn [String.eqb Ascii.eqb Bool.eqb].
  rewrite (truthy_present _ _ _ Hq), (truthy_present _ _ _ Ha).
  unfold bind at 1. cbn [randomUUID]. unfold bind. cbn [setActiveAiResponse modifyApp].
  rewrite speak_eq. reflexivity.
Qed.

Lemma handle_provideContext voice fc t e w :
  is_provideContext fc t e →
  handleFunctionCall voice fc w =
    (tt, {| state := with_activeAiResponse
                       (λ _, Some (Note.mk (next_uuid w) context e None (Some t))) (state w);
            refs := refs w;
            host := spoken voice (t +:+ ": " +:+ e)
                      (with_randomUUID_calls S (host w)) |}).
Proof.
  intros (Hn & Ht & He). unfold handleFunctionCall. rewrite Hn.
  cbn [String.eqb Ascii.eqb Bool.eqb].
  rewrite (truthy_present _ _ _ Ht), (truthy_present _ _ _ He).
  unfold bind at 1. cbn [randomUUID]. unfold bind. cbn [setActiveAiResponse modifyApp].
  rewrite speak_eq. reflexivity.
Qed.

(** Every call falls under one of the three guards or is dropped. *)
Lemma handle_cases voice fc :
  (∃ t, is_addNote fc t) ∨
  (∃ q a, is_answerQuestion fc q a) ∨
  (∃ t e, is_provideContext fc t e) ∨
  (∀ w, handleFunctionCall voice fc w = (tt, w)).
Proof.
  unfold handleFunctionCall, is_addNote, is_answerQuestion, is_provideContext.
  destruct (String.eqb_spec (name fc) "addNote") as [Hn|Hn].
  { destruct (truthy (args fc !! "tip")) as [t|] eqn:Ht.
    - left. exists t. split; [done|]. by apply truthy_Some.
    - rewrite Hn. cbn [String.eqb Ascii.eqb Bool.eqb]. do 3 right. reflexivity. }
  destruct (String.eqb_spec (name fc) "answerQuestion") as [Hq|Hq].
  { destruct (truthy (args fc !! "question")) as [q|] eqn:Eq;
      [destruct (truthy (args fc !! "answer")) as [a|] eqn:Ea|].
    - right; left. exists q, a. split; [done|]. split; by apply truthy_Some.
    - rewrite Hq. cbn [String.eqb Ascii.eqb Bool.eqb]. do 3 right. reflexivity.
    - rewrite Hq. cbn [String.eqb Ascii.eqb Bool.eqb]. do 3 right. reflexivity. }
  destruct (String.eqb_spec (name fc) "provideContext") as [Hp|Hp].
  { destruct (truthy (args fc !! "topic")) as [t|] eqn:Et;
      [destruct (truthy (args fc !! "explanation")) as [e|] eqn:Ee|].
    - right; right; left. exists t, e. split; [done|]. split; by apply truthy_Some.
    - do 3 right. reflexivity.
    - do 3 right. reflexivity. }
  do 3 right. reflexivity.
Qed.

(** ** Strings *)

Lemma append_nil_r s : s +:+ "" = s.
Proof.
  induction s as [|c s IH]; [reflexivity|].
  change (String c (s +:+ "") = String c s). by rewrite IH.
Qed.

Lemma append_assoc s1 s2 s3 : (s1 +:+ s2) +:+ s3 = s1 +:+ s2 +:+ s3.
Proof.
  induction s1 as [|c s1 IH]; [reflexivity|].
  change (String c ((s1 +:+ s2) +:+ s3) = String c (s1 +:+ s2 +:+ s3)). by rewrite IH.
Qed.

(** ** [onMessage], part by part *)

(** What one message appends to the transcript. *)
Lemma onMessage_transcription_forEach voice fcs w :
  transcription (state (exec (forEach fcs (handleFunctionCall voice)) w)) = transcription (state w).
Proof.
  revert w. induction fcs as [|fc fcs IH]; intros w; [reflexivity|].
  cbn [forEach]. rewrite exec_seq, IH.
  destruct (handle_cases voice fc) as [[t H]|[(q & a & H)|[(t & e & H)|H]]]; unfold exec.
  - rewrite (handle_addNote voice fc t w H). reflexivity.
  - rewrite (handle_answerQuestion voice fc q a w H). reflexivity.
  - rewrite (handle_provideContext voice fc t e w H). reflexivity.
  - rewrite H. reflexivity.
Qed.

Lemma onMessage_transcript_delta voice t w :
  onMessage voice (transcript_delta t) w =
    (tt, {| state := with_transcription (λ prev, prev +:+ t) (state w);
            refs := refs w; host := host w |}).
Proof. reflexivity. Qed.

Lemma onMessage_turn_complete voice w :
  onMessage voice turn_complete w =
    (tt, {| state := with_transcription (λ prev, prev +:+ " ") (state w);
            refs := refs w; host := host w |}).
Proof. reflexivity. Qed.

Lemma onMessage_tool_call voice fcs w :
  onMessage voice (tool_call fcs) w = forEach fcs (handleFunctionCall voice) w.
Proof.
  unfold onMessage, tool_call, bind. cbn.
  reflexivity.
Qed.

Lemma transcript_events voice evs w :
  transcription (state (exec (forEach (map transcript_message evs) (onMessage voice)) w)) =
  transcription (state w) +:+ concat_strings (map fragment evs).
Proof.
  revert w. induction evs as [|e evs IH]; intros w; cbn [map forEach concat_strings].
  - by rewrite exec_ret, append_nil_r.
  - rewrite exec_seq, IH. destruct e; cbn [transcript_message fragment]; unfold exec.
    + rewrite onMessage_transcript_delta. cbn. apply append_assoc.
    + rewrite onMessage_turn_complete. cbn. apply append_assoc.
Qed.

(** C2, as stated, fails: with the turn boundary between the two
    fragments the transcript is not ["Hola mundo "]. *)
Lemma hola_mundo_counterexample :
  transcription (state (exec
    (forEach (map transcript_message [Delta "Hola"; TurnComplete; Delta " mundo"]) (onMessage false))
    (sample_world true NetworkError))) ≠ "Hola mundo ".
Proof. vm_compute. discriminate. Qed.

(** C2 (amended): the transcript grows by the text of every
    transcript-delta, in arrival order, and by one space at every
    turn-complete; from an empty transcript the events "Hola",
    turn-complete, " mundo" give "Hola  mundo" (two spaces between the
    words, none at the end). *)
Theorem transcript_appends_in_order :
  (∀ voice evs w,
     transcription (state (exec (forEach (map transcript_message evs) (onMessage voice)) w)) =
     transcription (state w) +:+ concat_strings (map fragment evs)) ∧
  (∀ voice w, transcription (state w) = "" →
     transcription (state (exec
       (forEach (map transcript_message [Delta "Hola"; TurnComplete; Delta " mundo"]) (onMessage voice))
       w)) = "Hola  mundo").
Proof.
  split; [apply transcript_events|].
  intros voice w Hw. rewrite transcript_events, Hw. reflexivity.
Qed.

(** ** Dropped calls *)






(** A session in which an event carries four such invocations. *)
Example malformed_tool_call_dropped_example :
  onMessage false
    (tool_call [ {| name := "addNote"; args := ∅ |};
                 {| name := "answerQuestion"; args := {[ "question" := "q" ]} |};
                 {| name := "provideContext"; args := {[ "explanation" := "e" ]} |};
                 {| name := "deleteNote"; args := {[ "tip" := "t" ]} |} ])
    (sample_world true NetworkError)
  = (tt, sample_world true NetworkError).
Proof. reflexivity. Qed.

(** ** Frame properties *)

(** C9: a valid addNote call leaves the active note and the transcript
    as they were; a valid answerQuestion or provideContext call leaves
    the archived notes and the transcript as they were. *)
Theorem tool_call_frame voice fc w :
  let w' := exec (handleFunctionCall voice fc) w in
  (∀ t, is_addNote fc t →
     activeAiResponse (state w') = activeAiResponse (state w) ∧
     transcription (state w') = transcription (state w)) ∧
  (∀ q a, is_answerQuestion fc q a →
     notes (state w') = notes (state w) ∧
     transcription (state w') = transcription (state w)) ∧
  (∀ t e, is_provideContext fc t e →
     notes (state w') = notes (state w) ∧
     transcription (state w') = transcription (state w)).
Proof.
  cbn zeta. unfold exec. repeat split.
  - rewrite (handle_addNote voice fc t w H). reflexivity.
  - rewrite (handle_addNote voice fc t w H). reflexivity.
  - rewrite (handle_answerQuestion voice fc q a w H). reflexivity.
  - rewrite (handle_answerQuestion voice fc q a w H). reflexivity.
  - rewrite (handle_provideContext voice fc t e w H). reflexivity.
  - rewrite (handle_provideContext voice fc t e w H). reflexivity.
Qed.

(** ** Tip notes *)



Lemma tip_notes_type u k tips : Forall (λ n, Note.type n = tip) (tip_notes u k tips).
Proof. revert k. induction tips as [|t tips IH]; intros k; simpl; constructor; auto. Qed.





(** The tool calls of a message act on the world the transcript part
    of the message leaves, which differs in the transcript only. *)
Lemma onMessage_calls voice m w :
  ∃ f, onMessage voice m w =
       forEach (calls_of m) (handleFunctionCall voice)
         {| state := with_transcription f (state w); refs := refs w; host := host w |}.
Proof.
  destruct w as [s r h]. destruct s.
  destruct m as [ [ [ [ [tx] | ] [ [ | ] | ] ] | ] tc]; unfold onMessage, calls_of;
    cbn [serverContent toolCall inputTranscription turnComplete mbind option_bind text];
    destruct (tc ≫= functionCalls) as [fcs|];
    unfold bind; cbn;
    first [ by (eexists (λ prev, (prev +:+ _) +:+ " "))
          | by (eexists (λ prev, prev +:+ _))
          | by (exists (λ prev, prev)) ].
Qed.



(** ** Identifiers stay new *)

Lemma Inv_ext w w' :
  notes (state w') = notes (state w) →
  activeAiResponse (state w') = activeAiResponse (state w) →
  sessionHistory (state w') = sessionHistory (state w) →
  randomUUID_results (host w') = randomUUID_results (host w) →
  randomUUID_calls (host w') = randomUUID_calls (host w) →
  Inv w → Inv w'.
Proof.
  unfold Inv, fresh_supply, known_ids, note_ids.
  intros -> -> -> -> ->. auto.
Qed.

Lemma fresh_supply_step w w' :
  fresh_supply w →
  randomUUID_results (host w') = randomUUID_results (host w) →
  randomUUID_calls (host w) ≤ randomUUID_calls (host w') →
  (∀ x, x ∈ known_ids (state w') →
        x ∈ known_ids (state w) ∨
        ∃ k, randomUUID_calls (host w) ≤ k < randomUUID_calls (host w') ∧
             x = randomUUID_results (host w) k) →
  fresh_supply w'.
Proof.
  intros Hf Hr Hc Hk k Hle. rewrite Hr. split.
  - intros Hin. destruct (Hk _ Hin) as [Hold|(k' & Hk' & Heq)].
    + destruct (Hf k) as [Hn _]; [lia|]. auto.
    + destruct (Hf k) as [_ Hinj]; [lia|].
      assert (k' = k) by (apply Hinj; [lia | congruence]). lia.
  - intros j Hj Heq. destruct (Hf k) as [_ Hinj]; [lia|]. apply Hinj; [lia | done].
Qed.

Lemma next_uuid_fresh w : fresh_supply w → next_uuid w ∉ known_ids (state w).
Proof. intros Hf. destruct (Hf (randomUUID_calls (host w))) as [H _]; [lia | exact H]. Qed.

Lemma spoken_drawn_results voice txt h :
  randomUUID_results (spoken voice txt (with_randomUUID_calls S h)) = randomUUID_results h.
Proof. by destruct voice. Qed.

Lemma spoken_drawn_calls voice txt h :
  randomUUID_calls (spoken voice txt (with_randomUUID_calls S h)) = S (randomUUID_calls h).
Proof. by destruct voice. Qed.

(** Archiving a note that carries the identifier just drawn. *)
Lemma Inv_archive_new w n r h :
  Inv w →
  Note.id n = next_uuid w →
  randomUUID_results h = randomUUID_results (host w) →
  randomUUID_calls h = S (randomUUID_calls (host w)) →
  Inv {| state := with_notes (λ prev, prev ++ [n]) (state w); refs := r; host := h |}.
Proof.
  intros [Hf Hnd] Hid Hr Hc. pose proof (next_uuid_fresh w Hf) as Hnew.
  unfold known_ids in Hnew. apply not_elem_of_app in Hnew as [Hnew _]. split.
  - apply (fresh_supply_step w); [done|done|cbn; lia|].
    intros x. unfold known_ids, note_ids. cbn. rewrite Hc.
    rewrite !map_app, !elem_of_app. cbn. rewrite list_elem_of_singleton, Hid.
    intros [[[Hx|Hx]|Hx]|Hx]; auto.
    right. exists (randomUUID_calls (host w)). split; [lia | done].
  - unfold note_ids in *. cbn. rewrite !map_app in *. cbn. rewrite Hid.
    rewrite not_elem_of_app in Hnew. destruct Hnew as [Hnew1 Hnew2].
    apply NoDup_app in Hnd as (Hnd1 & Hnd2 & Hnd3).
    apply NoDup_app. split; [|split]; [|intros x Hx|done].
    + apply NoDup_app. split; [done|]. split; [|apply NoDup_singleton].
      intros x Hx. rewrite list_elem_of_singleton. intros ->. auto.
    + apply elem_of_app in Hx as [Hx|Hx]; [by apply Hnd2|].
      apply list_elem_of_singleton in Hx as ->. auto.
Qed.

(** Making a note that carries the identifier just drawn the active
    one. *)
Lemma Inv_activate_new w n r h :
  Inv w →
  Note.id n = next_uuid w →
  randomUUID_results h = randomUUID_results (host w) →
  randomUUID_calls h = S (randomUUID_calls (host w)) →
  Inv {| state := with_activeAiResponse (λ _, Some n) (state w); refs := r; host := h |}.
Proof.
  intros [Hf Hnd] Hid Hr Hc. pose proof (next_uuid_fresh w Hf) as Hnew.
  unfold known_ids in Hnew. apply not_elem_of_app in Hnew as [Hnew _]. split.
  - apply (fresh_supply_step w); [done|done|cbn; lia|].
    intros x. unfold known_ids, note_ids. cbn. rewrite Hc.
    rewrite !map_app, !elem_of_app. cbn. rewrite list_elem_of_singleton, Hid.
    intros [[Hx|Hx]|Hx]; auto.
    right. exists (randomUUID_calls (host w)). split; [lia | done].
  - unfold note_ids in *. cbn. rewrite !map_app in *. cbn. rewrite Hid.
    rewrite not_elem_of_app in Hnew. destruct Hnew as [Hnew1 _].
    apply NoDup_app in Hnd as (Hnd1 & _ & _).
    apply NoDup_app. split; [done|]. split; [|apply NoDup_singleton].
    intros x Hx. rewrite list_elem_of_singleton. intros ->. auto.
Qed.

Lemma handleFunctionCall_Inv voice fc w : Inv w → Inv (exec (handleFunctionCall voice fc) w).
Proof.
  intros HI.
  destruct (handle_cases voice fc) as [[t H]|[(q & a & H)|[(t & e & H)|H]]]; unfold exec.
  - rewrite (handle_addNote voice fc t w H).
    apply Inv_archive_new; [done|done|apply spoken_drawn_results|apply spoken_drawn_calls].
  - rewrite (handle_answerQuestion voice fc q a w H).
    apply Inv_activate_new; [done|done|apply spoken_drawn_results|apply spoken_drawn_calls].
  - rewrite (handle_provideContext voice fc t e w H).
    apply Inv_activate_new; [done|done|apply spoken_drawn_results|apply spoken_drawn_calls].
  - by rewrite H.
Qed.

Lemma forEach_handleFunctionCall_Inv voice fcs w :
  Inv w → Inv (exec (forEach fcs (handleFunctionCall voice)) w).
Proof.
  revert w. induction fcs as [|fc fcs IH]; intros w HI; [done|].
  cbn [forEach]. rewrite exec_seq. apply IH, handleFunctionCall_Inv, HI.
Qed.

Lemma onMessage_Inv voice m w : Inv w → Inv (exec (onMessage voice m) w).
Proof.
  intros HI. destruct (onMessage_calls voice m w) as [f Hf]. unfold exec. rewrite Hf.
  apply forEach_handleFunctionCall_Inv. revert HI. by apply Inv_ext.
Qed.

Lemma handleArchiveNote_Inv w : Inv w → Inv (exec handleArchiveNote w).
Proof.
  intros [Hf Hnd]. unfold handleArchiveNote, exec, bind, getApp.
  destruct (activeAiResponse (state w)) as [a|] eqn:Ha; cbn.
  - split.
    + apply (fresh_supply_step w); [done|done|cbn; lia|].
      intros x. unfold known_ids, note_ids. cbn. rewrite Ha. cbn.
      rewrite app_nil_r. auto.
    + unfold note_ids in *. cbn. rewrite Ha in Hnd. cbn in Hnd. by rewrite app_nil_r.
  - split; [|done]. apply (fresh_supply_step w); [done|done|cbn; lia|auto].
Qed.

(** ** [trim] and white space *)

Lemma whiteSpace_cases (P : list ascii → Prop) :
  Forall P whiteSpace → ∀ p, p ∈ whiteSpace → P p.
Proof. intros H p Hp. by apply (proj1 (Forall_forall _ _) H). Qed.

Lemma strip_first_whiteSpace p l :
  p ∈ whiteSpace → strip_first whiteSpace (p ++ l) = Some l.
Proof.
  revert p. apply whiteSpace_cases. cbv [whiteSpace utf8 map].
  repeat (constructor; [reflexivity|]). constructor.
Qed.

Lemma whiteSpace_nonempty p : p ∈ whiteSpace → 0 < length p.
Proof.
  revert p. apply whiteSpace_cases. cbv [whiteSpace utf8 map].
  repeat (constructor; [cbn; lia|]). constructor.
Qed.

Lemma strip_all_blank fuel l :
  blank_bytes l → length l ≤ fuel → strip_all fuel whiteSpace l = [].
Proof.
  intros Hb. revert fuel. induction Hb as [|p l Hp Hb IH]; intros fuel Hlen.
  - destruct fuel; reflexivity.
  - pose proof (whiteSpace_nonempty p Hp) as Hp0. rewrite length_app in Hlen.
    destruct fuel as [|fuel]; [lia|].
    cbn [strip_all]. rewrite (strip_first_whiteSpace p l Hp). apply IH. lia.
Qed.

Lemma trim_whitespace_only s : whitespace_only s → trim s = "".
Proof.
  intros Hb. unfold trim, trimStart_bytes.
  rewrite (strip_all_blank _ _ Hb); [reflexivity | lia].
Qed.

Lemma strip_prefix_Some p l r : strip_prefix p l = Some r → l = p ++ r.
Proof.
  revert l. induction p as [|a p IH]; intros l; cbn.
  - by intros [= ->].
  - destruct l as [|b l]; [discriminate|].
    destruct (Ascii.eqb_spec a b) as [->|]; [|discriminate].
    intros H. by rewrite (IH l H).
Qed.

Lemma strip_first_Some tbl l r :
  strip_first tbl l = Some r → ∃ p, p ∈ tbl ∧ l = p ++ r.
Proof.
  induction tbl as [|p tbl IH]; cbn; [discriminate|].
  destruct (strip_prefix p l) as [r'|] eqn:Hp.
  - intros [= ->]. exists p. split; [left | by apply strip_prefix_Some].
  - intros H. destruct (IH H) as (q & Hq & ->). exists q. split; [by right | done].
Qed.

Lemma strip_all_decompose fuel tbl l :
  ∃ ps, Forall (λ p, p ∈ tbl) ps ∧ l = concat ps ++ strip_all fuel tbl l.
Proof.
  revert l. induction fuel as [|fuel IH]; intros l; cbn.
  - exists []. split; [constructor | reflexivity].
  - destruct (strip_first tbl l) as [r|] eqn:Hr.
    + destruct (strip_first_Some _ _ _ Hr) as (p & Hp & ->).
      destruct (IH r) as (ps & Hps & Heq).
      exists (p :: ps). split; [by constructor|].
      cbn. rewrite <- app_assoc. by rewrite <- Heq.
    + exists []. split; [constructor | reflexivity].
Qed.

Lemma blank_bytes_app l1 l2 : blank_bytes l1 → blank_bytes l2 → blank_bytes (l1 ++ l2).
Proof.
  intros H1 H2. induction H1 as [|p l Hp _ IH]; [done|].
  rewrite <- app_assoc. by constructor.
Qed.

Lemma blank_bytes_concat ps : Forall (λ p, p ∈ whiteSpace) ps → blank_bytes (concat ps).
Proof.
  induction 1 as [|p ps Hp _ IH]; cbn; [constructor | by constructor].
Qed.

Lemma blank_bytes_rev_concat qs :
  Forall (λ q, q ∈ map (@rev ascii) whiteSpace) qs → blank_bytes (rev (concat qs)).
Proof.
  induction 1 as [|q qs Hq _ IH]; cbn; [constructor|].
  rewrite rev_app_distr. apply blank_bytes_app; [done|].
  apply list_elem_of_In, in_map_iff in Hq as (p & <- & Hp).
  rewrite rev_involutive, <- (app_nil_r p). constructor; [|constructor].
  by apply list_elem_of_In.
Qed.

Lemma trim_empty_whitespace_only s : trim s = "" → whitespace_only s.
Proof.
  unfold trim, whitespace_only, trimEnd_bytes, trimStart_bytes.
  set (l := list_ascii_of_string s). intros H.
  destruct (strip_all_decompose (length l) whiteSpace l) as (ps & Hps & Hl).
  set (l1 := strip_all (length l) whiteSpace l) in *.
  destruct (strip_all_decompose (length l1) (map (@rev ascii) whiteSpace) (rev l1))
    as (qs & Hqs & Hl1).
  assert (Hnil : rev (strip_all (length l1) (map (@rev ascii) whiteSpace) (rev l1)) = []).
  { apply (f_equal list_ascii_of_string) in H.
    by rewrite list_ascii_of_string_of_list_ascii in H. }
  apply (f_equal (@rev ascii)) in Hnil. rewrite rev_involutive in Hnil.
  change (@rev ascii []) with (@nil ascii) in Hnil.
  rewrite Hnil, app_nil_r in Hl1.
  apply (f_equal (@rev ascii)) in Hl1. rewrite rev_involutive in Hl1.
  rewrite Hl, Hl1. apply blank_bytes_app.
  - by apply blank_bytes_concat.
  - by apply blank_bytes_rev_concat.
Qed.

Lemma trim_eqb_whitespace_only s :
  String.eqb (trim s) "" = true ↔ whitespace_only s.
Proof.
  rewrite String.eqb_eq. split; [apply trim_empty_whitespace_only | apply trim_whitespace_only].
Qed.

(** ** [generateSessionReportAndTitle] *)

Lemma new_Date_toLocaleString_eq w :
  new_Date_toLocaleString w =
    (next_date_string w,
     {| state := state w; refs := refs w; host := with_Date_calls S (host w) |}).
Proof. reflexivity. Qed.

Lemma generate_blank t ns w :
  whitespace_only t →
  generateSessionReportAndTitle t ns w =
    (Return {| title := timestamp_title w;
               report := "No se grabó ninguna transcripción." |},
     {| state := state w; refs := refs w; host := with_Date_calls S (host w) |}).
Proof.
  intros Hb. unfold generateSessionReportAndTitle.
  rewrite (proj2 (trim_eqb_whitespace_only t) Hb). reflexivity.
Qed.

(** The reply the host holds for the next summarisation request. *)
Lemma generate_not_blank t ns w :
  ¬ whitespace_only t →
  let sent := with_prompts (λ ps, ps ++ [report_prompt t ns]) (host w) in
  generateSessionReportAndTitle t ns w =
    match generateContent_results (host w) (length (prompts (host w))) with
    | Parsed (JObject result) =>
        match truthy (result !! "title") with
        | Some x =>
            (Return {| title := x;
                       report := default "No se pudo generar el informe."
                                   (truthy (result !! "report")) |},
             {| state := state w; refs := refs w; host := sent |})
        | None =>
            (Return {| title := timestamp_title w;
                       report := default "No se pudo generar el informe."
                                   (truthy (result !! "report")) |},
             {| state := state w; refs := refs w; host := with_Date_calls S sent |})
        end
    | _ =>
        (Return {| title := error_title w; report := error_report |},
         {| state := state w; refs := refs w; host := with_Date_calls S sent |})
    end.
Proof.
  intros Hb. cbn zeta. unfold generateSessionReportAndTitle.
  destruct (String.eqb (trim t) "") eqn:Ht.
  { apply trim_eqb_whitespace_only in Ht. contradiction. }
  unfold try_catch, bind at 1 2. cbn [generateContent].
  destruct (generateContent_results (host w) (length (prompts (host w))))
    as [| |[|result]]; try reflexivity.
  unfold bind.
  destruct (truthy (result !! "title")) as [x|];
    destruct (truthy (result !! "report")) as [r|]; reflexivity.
Qed.

(** C3, as stated, fails for a reply that lacks a field: an empty
    object is valid JSON, nothing is thrown, and the record carries
    neither the error marker nor the error report. *)
Lemma missing_fields_counterexample :
  let w := sample_world true (Parsed (JObject ∅)) in
  ∃ tr, (generateSessionReportAndTitle "Hola" [] w).1 = Return tr ∧
        title tr = timestamp_title w ∧
        title tr ≠ error_title w ∧
        report tr = "No se pudo generar el informe." ∧
        report tr ≠ error_report.
Proof.
  eexists. split; [vm_compute; reflexivity|].
  vm_compute. repeat split; discriminate.
Qed.

(** C3 (amended): for a transcript that is not white space only,
    finalize sends one request and returns normally whatever the reply.
    When the request fails, the reply is not JSON, or it parses to
    [null], the record has the timestamp title with the "(Error)"
    marker and the fixed error report. When the reply parses to an
    object, a missing or empty title is replaced by the plain timestamp
    title and a missing or empty report by "No se pudo generar el
    informe."; the fields that are given are kept. *)
Theorem finalize_absorbs_failure t ns w :
  ¬ whitespace_only t →
  let reply := generateContent_results (host w) (length (prompts (host w))) in
  let out := generateSessionReportAndTitle t ns w in
  ∃ tr,
    out.1 = Return tr ∧
    prompts (host out.2) = prompts (host w) ++ [report_prompt t ns] ∧
    (reply = NetworkError ∨ reply = MalformedJSON ∨ reply = Parsed JNull →
       title tr = error_title w ∧ report tr = error_report) ∧
    (∀ result, reply = Parsed (JObject result) →
       title tr = default (timestamp_title w) (truthy (result !! "title")) ∧
       report tr = default "No se pudo generar el informe." (truthy (result !! "report"))).
Proof.
  intros Hb. cbn zeta. rewrite (generate_not_blank t ns w Hb).
  destruct (generateContent_results (host w) (length (prompts (host w))))
    as [| |[|result]].
  - eexists; split; [reflexivity|]; split; [reflexivity|]; split;
      [intros _; split; reflexivity | intros r [=]].
  - eexists; split; [reflexivity|]; split; [reflexivity|]; split;
      [intros _; split; reflexivity | intros r [=]].
  - eexists; split; [reflexivity|]; split; [reflexivity|]; split;
      [intros _; split; reflexivity | intros r [=]].
  - destruct (truthy (result !! "title")) as [x|] eqn:Hx;
      (eexists; split; [reflexivity|]; split; [reflexivity|]; split;
       [ intros [[=]|[[=]|[=]]]
       | intros r [= <-]; rewrite Hx; split; reflexivity ]).
Qed.

Lemma finalize_absorbs_failure_witness :
  let w := sample_world true MalformedJSON in
  ∃ tr, (generateSessionReportAndTitle "Hola mundo " [] w).1 = Return tr ∧
        title tr = error_title w ∧ report tr = error_report.
Proof.
  cbn zeta.
  assert (Hb : ¬ whitespace_only "Hola mundo ").
  { intros Hb. apply trim_whitespace_only in Hb. vm_compute in Hb. discriminate. }
  destruct (finalize_absorbs_failure "Hola mundo " [] (sample_world true MalformedJSON) Hb)
    as (tr & H1 & _ & H2 & _).
  exists tr. split; [exact H1|]. apply H2. right; left. reflexivity.
Defined.

(** C4: for an empty or white-space-only transcript finalize sends no
    request: it returns the plain timestamp title and the fixed "no
    transcript" report, whatever the notes and whatever the remote
    service would have answered, and only the clock has been read. *)
Theorem finalize_blank_transcript t ns w :
  whitespace_only t →
  generateSessionReportAndTitle t ns w =
    (Return {| title := timestamp_title w;
               report := "No se grabó ninguna transcripción." |},
     {| state := state w; refs := refs w; host := with_Date_calls S (host w) |}) ∧
  prompts (host (generateSessionReportAndTitle t ns w).2) = prompts (host w).
Proof.
  intros Hb. rewrite (generate_blank t ns w Hb). split; reflexivity.
Qed.

Lemma finalize_blank_transcript_witness :
  let w := sample_world true NetworkError in
  let t := " " +:+ LF +:+ string_of_list_ascii (utf8 [226; 128; 131]) in
  prompts (host (generateSessionReportAndTitle t [] w).2) = [].
Proof.
  cbn zeta. refine (proj2 (finalize_blank_transcript _ [] (sample_world true NetworkError) _)).
  apply trim_empty_whitespace_only. vm_compute. reflexivity.
Defined.

(** Finalize always returns, and touches the host only by reading the
    clock at most once and by logging at most one prompt. *)
Lemma generate_returns t ns w :
  ∃ tr h,
    generateSessionReportAndTitle t ns w =
      (Return tr, {| state := state w; refs := refs w; host := h |}) ∧
    randomUUID_results h = randomUUID_results (host w) ∧
    randomUUID_calls h = randomUUID_calls (host w) ∧
    Date_results h = Date_results (host w) ∧
    Date_calls (host w) ≤ Date_calls h.
Proof.
  destruct (String.eqb (trim t) "") eqn:Ht.
  - apply trim_eqb_whitespace_only in Ht. rewrite (generate_blank t ns w Ht).
    eexists _, _. split; [reflexivity|]. cbn. auto with lia.
  - assert (Hb : ¬ whitespace_only t).
    { intros Hb. apply trim_eqb_whitespace_only in Hb. congruence. }
    rewrite (generate_not_blank t ns w Hb).
    destruct (generateContent_results (host w) (length (prompts (host w))))
      as [| |[|result]];
      [| | |destruct (truthy (result !! "title"))];
      (eexists _, _; split; [reflexivity|]; cbn; auto with lia).
Qed.

(** ** [stopSession] *)

Lemma final_notes_eq s :
  match activeAiResponse s with
  | Some a => notes s ++ [a]
  | None => notes s
  end = notes s ++ option_list (activeAiResponse s).
Proof. destruct (activeAiResponse s); cbn; [done | by rewrite app_nil_r]. Qed.

Lemma stopSession_eq w :
  let s1 := with_isGeneratingReport (λ _, true) (state w) in
  let finalNotes := notes (state w) ++ option_list (activeAiResponse (state w)) in
  ∃ tr h,
    generateSessionReportAndTitle (transcription (state w)) finalNotes
      {| state := s1; refs := refs w; host := host w |} =
      (Return tr, {| state := s1; refs := refs w; host := h |}) ∧
    stopSession w =
      (Return tt,
       {| state :=
            with_activeAiResponse (λ _, None)
              (with_notes (λ _, [])
                 (with_transcription (λ _, "")
                    (with_isGeneratingReport (λ _, false)
                       (with_isListening (λ _, false)
                          (with_sessionHistory
                             (λ prev,
                                SessionRecord.mk
                                  (randomUUID_results h (randomUUID_calls h))
                                  (title tr)
                                  (Date_results h (Date_calls h))
                                  (transcription (state w)) finalNotes (report tr)
                                :: prev)
                             s1)))));
          refs := no_refs;
          host := with_Date_calls S (with_randomUUID_calls S h) |}).
Proof.
  cbn zeta.
  destruct (generate_returns (transcription (state w))
              (notes (state w) ++ option_list (activeAiResponse (state w)))
              {| state := with_isGeneratingReport (λ _, true) (state w);
                 refs := refs w; host := host w |})
    as (tr & h & Hgen & _).
  exists tr, h. split; [exact Hgen|].
  unfold stopSession. unfold bind at 1. cbn [setIsGeneratingReport modifyApp].
  unfold bind at 1. cbn [getApp state].
  cbn [transcription notes activeAiResponse with_isGeneratingReport].
  rewrite final_notes_eq. unfold bind at 1. cbn [state refs host] in Hgen. rewrite Hgen.
  reflexivity.
Qed.



(** ** [startSession] *)

Lemma startSession_acquire_eq w :
  startSession_acquire w =
    (tt,
     if getUserMedia_results (host w) (getUserMedia_calls (host w)) then
       {| state := state w;
          refs := {| sessionPromiseRef :=
                       Some {| tools := session_tools (isContextualizeEnabled (state w));
                               onmessage_voice := isVoiceResponseEnabled (state w) |};
                     audioContextRef := true; scriptProcessorRef := true;
                     mediaStreamRef := true; timerIntervalRef := true |};
          host := with_getUserMedia_calls S (host w) |}
     else
       {| state := with_isListening (λ _, false)
                     (with_error (λ _, Some "No se pudo acceder al micrófono.") (state w));
          refs := refs w;
          host := with_getUserMedia_calls S (host w) |}).
Proof.
  unfold startSession_acquire, bind. cbn [getUserMedia].
  destruct (getUserMedia_results _ _); reflexivity.
Qed.

(** C10: [startSession] is the reset of line 124 followed by the
    acquisition of the microphone and the channel. The reset touches
    neither a handle nor the host and leaves an empty transcript, no
    archived note, no active note, no error message and the full
    countdown; whether or not the microphone is then granted, the
    transcript, the notes, the active note and the countdown stay so. *)
Theorem startSession_resets_first w :
  let w0 := exec startSession_reset w in
  let w' := exec startSession w in
  w' = exec startSession_acquire w0 ∧
  refs w0 = refs w ∧ host w0 = host w ∧
  transcription (state w0) = "" ∧ notes (state w0) = [] ∧
  activeAiResponse (state w0) = None ∧ error (state w0) = None ∧
  timeLeft (state w0) = 600%Z ∧
  transcription (state w') = "" ∧ notes (state w') = [] ∧
  activeAiResponse (state w') = None ∧ timeLeft (state w') = 600%Z.
Proof.
  cbn zeta. split; [apply exec_seq|].
  do 7 (split; [reflexivity|]).
  unfold startSession. rewrite exec_seq.
  unfold exec at 1 3 5 7. rewrite startSession_acquire_eq.
  change (host (exec startSession_reset w)) with (host w).
  destruct (getUserMedia_results _ _); repeat split; reflexivity.
Qed.

(** ** The context tool *)

Lemma startSession_declared w :
  getUserMedia_results (host w) (getUserMedia_calls (host w)) = true →
  declared_names (refs (exec startSession w)) =
    "addNote" :: "answerQuestion" ::
    (if isContextualizeEnabled (state w) then ["provideContext"] else []).
Proof.
  intros Hg. unfold startSession. rewrite exec_seq.
  unfold exec at 1. rewrite startSession_acquire_eq.
  change (host (exec startSession_reset w)) with (host w). rewrite Hg.
  cbn. by destruct (isContextualizeEnabled (state w)).
Qed.

(** C7, as stated, fails: in a session started with the setting off,
    where provideContext is not declared, a provideContext event still
    makes a context note the active note. *)
Lemma undeclared_provideContext_counterexample :
  let w := exec startSession (sample_world false NetworkError) in
  isContextualizeEnabled (state w) = false ∧
  declared_names (refs w) = ["addNote"; "answerQuestion"] ∧
  activeAiResponse (state w) = None ∧
  activeAiResponse
    (state (exec (onMessage false (tool_call [call_provideContext "Sepsis" "Respuesta desregulada"])) w))
  = Some (Note.mk "0" context "Respuesta desregulada" None (Some "Sepsis")).
Proof. vm_compute. repeat split; reflexivity. Qed.

(** C7 (amended): the provideContext schema is declared to the channel
    exactly when the contextualize setting is on at session start.
    [onMessage] consults neither the setting nor the declaration: a
    provideContext call with a non-empty topic and a non-empty
    explanation makes a context note the active note in either case. *)
Theorem provideContext_declared_by_setting_handled_always voice w fc t e :
  getUserMedia_results (host w) (getUserMedia_calls (host w)) = true →
  is_provideContext fc t e →
  let w1 := exec startSession w in
  ("provideContext" ∈ declared_names (refs w1) ↔ isContextualizeEnabled (state w) = true) ∧
  "addNote" ∈ declared_names (refs w1) ∧
  "answerQuestion" ∈ declared_names (refs w1) ∧
  activeAiResponse (state (exec (onMessage voice (tool_call [fc])) w1)) =
    Some (Note.mk (next_uuid w1) context e None (Some t)).
Proof.
  intros Hg Hfc. cbn zeta. rewrite (startSession_declared w Hg).
  split; [|split; [|split]].
  - destruct (isContextualizeEnabled (state w)); split; try done.
    + intros _. do 2 right. left.
    + rewrite !elem_of_cons. intros [[=]|[[=]|H]]. by apply elem_of_nil in H.
  - left.
  - right. left.
  - unfold exec at 1. rewrite onMessage_tool_call. cbn [forEach]. unfold bind.
    rewrite (handle_provideContext voice fc t e _ Hfc). reflexivity.
Qed.

Lemma provideContext_declared_by_setting_handled_always_witness :
  let w1 := exec startSession (sample_world false NetworkError) in
  activeAiResponse
    (state (exec (onMessage false (tool_call [call_provideContext "Sepsis" "Respuesta desregulada"])) w1))
  = Some (Note.mk (next_uuid w1) context "Respuesta desregulada" None (Some "Sepsis")).
Proof.
  cbn zeta.
  refine (proj2 (proj2 (proj2
    (provideContext_declared_by_setting_handled_always false
       (sample_world false NetworkError)
       (call_provideContext "Sepsis" "Respuesta desregulada")
       "Sepsis" "Respuesta desregulada" _ _)))).
  - reflexivity.
  - apply call_provideContext_valid.
Defined.

(** ** The invariant holds in every reachable world *)

Lemma stopSession_Inv w : Inv w → Inv (exec stopSession w).
Proof.
  intros [Hf _].
  destruct (stopSession_eq w) as (tr & h & Hgen & Hstop).
  destruct (generate_returns (transcription (state w))
              (notes (state w) ++ option_list (activeAiResponse (state w)))
              {| state := with_isGeneratingReport (λ _, true) (state w);
                 refs := refs w; host := host w |})
    as (tr' & h' & Hgen' & Hr & Hc & _).
  cbn zeta in Hgen. rewrite Hgen in Hgen'. injection Hgen' as <- <-.
  cbn [host] in Hr, Hc.
  unfold exec. rewrite Hstop. cbn [snd]. split.
  - apply (fresh_supply_step w); [done| | |].
    + cbn. exact Hr.
    + cbn. lia.
    + intros x. unfold known_ids, note_ids. cbn. rewrite Hr, Hc.
      rewrite !elem_of_cons, !elem_of_app. intros [->|Hx]; [|auto].
      right. exists (randomUUID_calls (host w)). split; [lia | done].
  - unfold note_ids. cbn. constructor.
Qed.

Lemma startSession_Inv w : Inv w → Inv (exec startSession w).
Proof.
  intros [Hf _]. unfold startSession. rewrite exec_seq.
  unfold exec at 1. rewrite startSession_acquire_eq.
  change (host (exec startSession_reset w)) with (host w).
  destruct (getUserMedia_results _ _); cbn [snd]; (split; [|constructor]);
    (apply (fresh_supply_step w); [done|reflexivity|cbn; lia|]);
    intros x; unfold known_ids, note_ids; cbn; rewrite elem_of_app; auto.
Qed.

Lemma tick_Inv w : Inv w → Inv (exec tick w).
Proof.
  unfold tick, exec, bind, getRefs. destruct (timerIntervalRef (refs w)); cbn; [|done].
  by apply Inv_ext.
Qed.

Lemma timeoutEffect_Inv w : Inv w → Inv (exec timeoutEffect w).
Proof.
  intros HI. unfold timeoutEffect. rewrite exec_bind. cbn [getApp fst].
  change (exec getApp w) with w.
  destruct (isListening (state w) && (timeLeft (state w) <=? 0)%Z); [|done].
  by apply stopSession_Inv.
Qed.

Lemma toggleContextualize_Inv w : Inv w → Inv (exec toggleContextualize w).
Proof.
  unfold toggleContextualize, exec, bind, getApp. destruct (isListening (state w)); cbn; [done|].
  by apply Inv_ext.
Qed.

Lemma toggleVoiceResponse_Inv w : Inv w → Inv (exec toggleVoiceResponse w).
Proof. unfold toggleVoiceResponse, exec, bind, getApp. cbn. by apply Inv_ext. Qed.

Lemma step_Inv e w : Inv w → Inv (step e w).
Proof.
  intros HI. destruct e as [|m| | | |]; cbn [step].
  - destruct (isListening (state w)); [by apply stopSession_Inv | by apply startSession_Inv].
  - destruct (sessionPromiseRef (refs w)); [by apply onMessage_Inv | done].
  - by apply handleArchiveNote_Inv.
  - rewrite exec_seq. by apply timeoutEffect_Inv, tick_Inv.
  - by apply toggleContextualize_Inv.
  - by apply toggleVoiceResponse_Inv.
Qed.

Lemma mounted_Inv w : mounted w → Inv w.
Proof.
  intros (_ & _ & Hn & _ & _ & Ha & _ & _ & _ & _ & _ & Hf). split; [done|].
  unfold note_ids. rewrite Hn, Ha. constructor.
Qed.

Lemma reachable_Inv w : reachable w → Inv w.
Proof.
  induction 1 as [w Hm|e w _ IH]; [by apply mounted_Inv | by apply step_Inv].
Qed.

Lemma reachable_run es w : reachable w → reachable (run es w).
Proof.
  revert w. induction es as [|e es IH]; intros w Hw; [done|].
  cbn. apply IH. by constructor.
Qed.

Lemma sample_world_mounted reply : mounted (sample_world true reply).
Proof.
  repeat split; try reflexivity.
  - cbn. apply not_elem_of_nil.
  - intros j _. cbn. apply (inj pretty).
Qed.

(** ** The active note *)

Lemma exec_tool_call_single voice fc w :
  exec (onMessage voice (tool_call [fc])) w = exec (handleFunctionCall voice fc) w.
Proof.
  unfold exec. rewrite onMessage_tool_call. cbn [forEach]. unfold bind.
  by destruct (handleFunctionCall voice fc w).
Qed.

(** C1: the active slot holds at most one note. In a reachable world
    with an active note, a tool-call event with a valid answerQuestion
    or provideContext invocation makes the new qa or context note the
    active one; the note that was active is not the new one and is not
    among the archived notes, which are the same as before. *)
Theorem active_note_replaced_and_dropped voice w fc old :
  reachable w →
  activeAiResponse (state w) = Some old →
  (∃ q a, is_answerQuestion fc q a) ∨ (∃ t e, is_provideContext fc t e) →
  let w' := exec (onMessage voice (tool_call [fc])) w in
  ∃ new,
    activeAiResponse (state w') = Some new ∧
    length (option_list (activeAiResponse (state w'))) ≤ 1 ∧
    (∀ q a, is_answerQuestion fc q a → new = Note.mk (next_uuid w) qa a (Some q) None) ∧
    (∀ t e, is_provideContext fc t e → new = Note.mk (next_uuid w) context e None (Some t)) ∧
    new ≠ old ∧
    Note.id new ≠ Note.id old ∧
    (old ∉ notes (state w')) ∧
    (Note.id old ∉ map Note.id (notes (state w'))) ∧
    notes (state w') = notes (state w).
Proof.
  intros Hr Hold Hfc. cbn zeta. rewrite exec_tool_call_single.
  destruct (reachable_Inv w Hr) as [Hf Hnd].
  pose proof (next_uuid_fresh w Hf) as Hnew.
  unfold known_ids, note_ids in Hnew, Hnd. rewrite Hold in Hnew, Hnd. cbn in Hnew, Hnd.
  rewrite map_app in Hnew, Hnd. cbn in Hnew, Hnd.
  rewrite !not_elem_of_app, list_elem_of_singleton in Hnew.
  destruct Hnew as [[_ Hne] _].
  apply NoDup_app in Hnd as (_ & Hdisj & _).
  assert (Hold_id : Note.id old ∉ map Note.id (notes (state w))).
  { intros Hin. apply (Hdisj _ Hin). left. }
  assert (Hold_notes : old ∉ notes (state w)).
  { intros Hin. apply Hold_id, list_elem_of_In, in_map, list_elem_of_In, Hin. }
  destruct Hfc as [(q & a & H)|(t & e & H)]; unfold exec.
  - rewrite (handle_answerQuestion voice fc q a w H). cbn.
    eexists. split; [reflexivity|]. split; [lia|].
    split; [|split; [|split; [|split; [|split; [|split]]]]]; auto.
    + intros q' a' (_ & [Hq' _] & [Ha' _]). destruct H as (_ & [Hq _] & [Ha _]).
      congruence.
    + intros t' e' [Hn' _]. destruct H as [Hn _]. congruence.
    + intros <-. cbn in Hne. congruence.
  - rewrite (handle_provideContext voice fc t e w H). cbn.
    eexists. split; [reflexivity|]. split; [lia|].
    split; [|split; [|split; [|split; [|split; [|split]]]]]; auto.
    + intros q' a' [Hn' _]. destruct H as [Hn _]. congruence.
    + intros t' e' (_ & [Ht' _] & [He' _]). destruct H as (_ & [Ht _] & [He _]).
      congruence.
    + intros <-. cbn in Hne. congruence.
Qed.

Lemma active_note_replaced_and_dropped_witness :
  let w := run [ClickMainButton;
                Message (tool_call [call_provideContext "Sepsis" "Respuesta desregulada"])]
             (sample_world true NetworkError) in
  let old := Note.mk "0" context "Respuesta desregulada" None (Some "Sepsis") in
  ∃ new,
    activeAiResponse
      (state (exec (onMessage false (tool_call [call_answerQuestion "¿Qué es X?" "Y"])) w)) = Some new ∧
    new ≠ old ∧
    (old ∉ notes (state (exec (onMessage false (tool_call [call_answerQuestion "¿Qué es X?" "Y"])) w))).
Proof.
  cbn zeta.
  destruct (active_note_replaced_and_dropped false
              (run [ClickMainButton;
                    Message (tool_call [call_provideContext "Sepsis" "Respuesta desregulada"])]
                 (sample_world true NetworkError))
              (call_answerQuestion "¿Qué es X?" "Y")
              (Note.mk "0" context "Respuesta desregulada" None (Some "Sepsis")))
    as (new & H1 & _ & _ & _ & H2 & _ & H3 & _).
  - apply reachable_run, reachable_mounted, sample_world_mounted.
  - reflexivity.
  - left. exists "¿Qué es X?", "Y". apply call_answerQuestion_valid.
  - exists new. auto.
Defined.

(** * Further properties *)

(** ** The countdown display *)

Lemma padStart_two_digits n :
  (0 ≤ n < 100)%Z → padStart (Number_toString n) 2 "0" = two_digits n.
Proof.
  intros Hn.
  assert (Hall : Forall (λ k, padStart (Number_toString k) 2 "0" = two_digits k) (seqZ 0 100)).
  { apply (bool_decide_unpack _). vm_compute. exact I. }
  apply (proj1 (Forall_forall _ _) Hall). apply elem_of_seqZ. lia.
Qed.

Lemma digit_inj a b : (0 ≤ a < 10)%Z → (0 ≤ b < 10)%Z → digit a = digit b → a = b.
Proof.
  intros Ha Hb H.
  assert (Hall : Forall (λ x, Forall (λ y, digit x = digit y → x = y) (seqZ 0 10)) (seqZ 0 10)).
  { apply (bool_decide_unpack _). vm_compute. exact I. }
  pose proof (proj1 (Forall_forall _ _) Hall a) as Ha'.
  pose proof (proj1 (Forall_forall _ _) (Ha' ltac:(apply elem_of_seqZ; lia)) b) as Hb'.
  apply Hb'; [apply elem_of_seqZ; lia | done].
Qed.

Lemma two_digits_inj a b :
  (0 ≤ a < 100)%Z → (0 ≤ b < 100)%Z → two_digits a = two_digits b → a = b.
Proof.
  intros Ha Hb [= H1 H2].
  assert (Hq : ∀ n, (0 ≤ n < 100 → 0 ≤ n / 10 < 10)%Z).
  { intros n Hn. split; [apply Z.div_pos; lia | apply Z.div_lt_upper_bound; lia]. }
  pose proof (Z.mod_pos_bound a 10). pose proof (Z.mod_pos_bound b 10).
  apply digit_inj in H1; [|by apply Hq..]. apply digit_inj in H2; [|lia..].
  rewrite (Z.div_mod a 10), (Z.div_mod b 10) by lia. congruence.
Qed.

Lemma formatTime_two_digits s :
  (0 ≤ s < 6000)%Z →
  formatTime s = two_digits (s / 60) +:+ ":" +:+ two_digits (s mod 60).
Proof.
  intros Hs. unfold formatTime.
  rewrite Z.rem_mod_nonneg by lia.
  rewrite !padStart_two_digits; [done| |].
  - pose proof (Z.mod_pos_bound s 60). lia.
  - split; [apply Z.div_pos; lia | apply Z.div_lt_upper_bound; lia].
Qed.

(** X1: for a number of seconds below one hundred minutes [formatTime]
    gives the minutes and the seconds within the minute, each on two
    decimal digits, around a colon. *)
Theorem formatTime_mm_ss s :
  (0 ≤ s < 6000)%Z →
  formatTime s = two_digits (s / 60) +:+ ":" +:+ two_digits (s mod 60).
Proof. apply formatTime_two_digits. Qed.

Lemma formatTime_mm_ss_witness : formatTime 600 = "10:00".
Proof. apply (formatTime_mm_ss 600). lia. Defined.

(** X2: below one hundred minutes, two different numbers of seconds
    are never displayed alike. *)
Theorem formatTime_inj s1 s2 :
  (0 ≤ s1 < 6000)%Z → (0 ≤ s2 < 6000)%Z →
  formatTime s1 = formatTime s2 → s1 = s2.
Proof.
  intros H1 H2. rewrite !formatTime_two_digits by done.
  pose proof (Z.mod_pos_bound s1 60). pose proof (Z.mod_pos_bound s2 60).
  assert (0 ≤ s1 / 60 < 100)%Z
    by (split; [apply Z.div_pos; lia | apply Z.div_lt_upper_bound; lia]).
  assert (0 ≤ s2 / 60 < 100)%Z
    by (split; [apply Z.div_pos; lia | apply Z.div_lt_upper_bound; lia]).
  unfold two_digits at 1 3. cbn [String.append].
  intros [= Ha Hb Hc Hd].
  assert (s1 / 60 = s2 / 60)%Z.
  { apply two_digits_inj; [done|done|]. unfold two_digits. by rewrite Ha, Hb. }
  assert (s1 mod 60 = s2 mod 60)%Z.
  { apply two_digits_inj; [lia|lia|]. unfold two_digits. by rewrite Hc, Hd. }
  rewrite (Z.div_mod s1 60), (Z.div_mod s2 60) by lia. congruence.
Qed.

Lemma formatTime_inj_witness : (9 * 60 + 59 = 599)%Z.
Proof. apply formatTime_inj; [lia | lia | reflexivity]. Defined.

(** ** What a message leaves alone *)

Lemma same_session_fields_refl s : same_session_fields s s.
Proof. repeat split. Qed.

Lemma same_session_fields_trans s1 s2 s3 :
  same_session_fields s1 s2 → same_session_fields s2 s3 → same_session_fields s1 s3.
Proof.
  unfold same_session_fields.
  intros (?&?&?&?&?&?&?&?) (?&?&?&?&?&?&?&?). repeat split; congruence.
Qed.

Lemma handleFunctionCall_frame voice fc w :
  let w' := exec (handleFunctionCall voice fc) w in
  same_session_fields (state w) (state w') ∧ refs w' = refs w ∧
  Date_calls (host w') = Date_calls (host w) ∧
  prompts (host w') = prompts (host w) ∧
  getUserMedia_calls (host w') = getUserMedia_calls (host w).
Proof.
  cbn zeta.
  destruct (handle_cases voice fc) as [[t H]|[(q & a & H)|[(t & e & H)|H]]]; unfold exec.
  - rewrite (handle_addNote voice fc t w H). cbn.
    split; [repeat split|]. split; [done|]. by destruct voice.
  - rewrite (handle_answerQuestion voice fc q a w H). cbn.
    split; [repeat split|]. split; [done|]. by destruct voice.
  - rewrite (handle_provideContext voice fc t e w H). cbn.
    split; [repeat split|]. split; [done|]. by destruct voice.
  - rewrite H. cbn. split; [repeat split|]. auto.
Qed.

Lemma forEach_handleFunctionCall_frame voice fcs w :
  let w' := exec (forEach fcs (handleFunctionCall voice)) w in
  same_session_fields (state w) (state w') ∧ refs w' = refs w ∧
  Date_calls (host w') = Date_calls (host w) ∧
  prompts (host w') = prompts (host w) ∧
  getUserMedia_calls (host w') = getUserMedia_calls (host w).
Proof.
  cbn zeta. revert w. induction fcs as [|fc fcs IH]; intros w.
  - cbn. split; [repeat split|]. auto.
  - cbn [forEach]. rewrite exec_seq.
    destruct (handleFunctionCall_frame voice fc w) as (F1 & F2 & F3 & F4 & F5).
    destruct (IH (exec (handleFunctionCall voice fc) w)) as (G1 & G2 & G3 & G4 & G5).
    split; [by eapply same_session_fields_trans|]. repeat split; congruence.
Qed.

Lemma onMessage_untouched voice m w :
  let w' := exec (onMessage voice m) w in
  same_session_fields (state w) (state w') ∧ refs w' = refs w ∧
  Date_calls (host w') = Date_calls (host w) ∧
  prompts (host w') = prompts (host w) ∧
  getUserMedia_calls (host w') = getUserMedia_calls (host w).
Proof.
  cbn zeta. destruct (onMessage_calls voice m w) as [f Hf]. unfold exec. rewrite Hf.
  apply (forEach_handleFunctionCall_frame voice (calls_of m)
           {| state := with_transcription f (state w); refs := refs w; host := host w |}).
Qed.

(** X3: a message of the channel, whatever it carries, changes
    neither the listening flag, the countdown, the error message, the
    history, the session being viewed, the settings nor any handle; it
    never reads the clock, asks for the microphone or sends a
    summarisation request. *)
Theorem onMessage_frame voice m w :
  let w' := exec (onMessage voice m) w in
  same_session_fields (state w) (state w') ∧ refs w' = refs w ∧
  Date_calls (host w') = Date_calls (host w) ∧
  prompts (host w') = prompts (host w) ∧
  getUserMedia_calls (host w') = getUserMedia_calls (host w).
Proof. apply onMessage_untouched. Qed.

(** ** Speech *)

Lemma handleFunctionCall_utterances voice fc w :
  let w' := exec (handleFunctionCall voice fc) w in
  ∃ said,
    utterances (host w') = utterances (host w) ++ said ∧
    randomUUID_calls (host w) ≤ randomUUID_calls (host w') ∧
    length said =
      if voice then randomUUID_calls (host w') - randomUUID_calls (host w) else 0.
Proof.
  cbn zeta.
  destruct (handle_cases voice fc) as [[t H]|[(q & a & H)|[(t & e & H)|H]]]; unfold exec.
  - rewrite (handle_addNote voice fc t w H). destruct voice; cbn.
    + eexists [_]. split; [done|]. split; [lia|]. cbn. lia.
    + exists []. rewrite app_nil_r. split; [done|]. split; [lia|done].
  - rewrite (handle_answerQuestion voice fc q a w H). destruct voice; cbn.
    + eexists [_]. split; [done|]. split; [lia|]. cbn. lia.
    + exists []. rewrite app_nil_r. split; [done|]. split; [lia|done].
  - rewrite (handle_provideContext voice fc t e w H). destruct voice; cbn.
    + eexists [_]. split; [done|]. split; [lia|]. cbn. lia.
    + exists []. rewrite app_nil_r. split; [done|]. split; [lia|done].
  - rewrite H. cbn. exists []. rewrite app_nil_r. split; [done|]. split; [lia|].
    destruct voice; cbn; lia.
Qed.

Lemma forEach_utterances voice fcs w :
  let w' := exec (forEach fcs (handleFunctionCall voice)) w in
  ∃ said,
    utterances (host w') = utterances (host w) ++ said ∧
    randomUUID_calls (host w) ≤ randomUUID_calls (host w') ∧
    length said =
      if voice then randomUUID_calls (host w') - randomUUID_calls (host w) else 0.
Proof.
  cbn zeta. revert w. induction fcs as [|fc fcs IH]; intros w.
  - cbn. exists []. rewrite app_nil_r. split; [done|]. split; [lia|].
    destruct voice; cbn; lia.
  - cbn [forEach]. rewrite exec_seq.
    destruct (handleFunctionCall_utterances voice fc w) as (s1 & U1 & L1 & N1).
    destruct (IH (exec (handleFunctionCall voice fc) w)) as (s2 & U2 & L2 & N2).
    exists (s1 ++ s2). rewrite U2, U1, <- app_assoc. split; [done|]. split; [lia|].
    rewrite length_app, N1, N2. destruct voice; lia.
Qed.

(** X4: the utterances a message causes come after the ones already
    made. With the voice setting off there is none; with it on there is
    exactly one for every note the message creates (every identifier
    it draws). *)
Theorem onMessage_speaks_once_per_note voice m w :
  let w' := exec (onMessage voice m) w in
  ∃ said,
    utterances (host w') = utterances (host w) ++ said ∧
    randomUUID_calls (host w) ≤ randomUUID_calls (host w') ∧
    length said =
      if voice then randomUUID_calls (host w') - randomUUID_calls (host w) else 0.
Proof.
  cbn zeta. destruct (onMessage_calls voice m w) as [f Hf]. unfold exec. rewrite Hf.
  apply (forEach_utterances voice (calls_of m)
           {| state := with_transcription f (state w); refs := refs w; host := host w |}).
Qed.

(** ** Arguments given as the empty string *)

(** X5: an argument that is present but is the empty string counts as
    missing: a call of a declared function with an empty required
    field is dropped and leaves the world as it was. *)
Theorem empty_argument_dropped voice fc fd k w :
  fd ∈ all_declarations →
  fd_name fd = name fc →
  k ∈ fd_required fd →
  args fc !! k = Some "" →
  handleFunctionCall voice fc w = (tt, w).
Proof.
  intros Hfd Hname Hk Hempty.
  destruct (handle_cases voice fc) as [[t H]|[(q & a & H)|[(t & e & H)|H]]]; [| | |apply H];
    exfalso; unfold all_declarations in Hfd;
    rewrite !elem_of_cons in Hfd; destruct Hfd as [->|[->|[->|Hfd]]];
    try (by apply elem_of_nil in Hfd);
    cbn in Hname, Hk; rewrite ?elem_of_cons in Hk.
  - destruct H as (_ & Ht & Hne). destruct Hk as [->|Hk]; [|by apply elem_of_nil in Hk].
    congruence.
  - destruct H as [Hn _]. congruence.
  - destruct H as [Hn _]. congruence.
  - destruct H as [Hn _]. congruence.
  - destruct H as (_ & [Hq Hqne] & [Ha Hane]).
    destruct Hk as [->|[->|Hk]]; [congruence|congruence|by apply elem_of_nil in Hk].
  - destruct H as [Hn _]. congruence.
  - destruct H as [Hn _]. congruence.
  - destruct H as [Hn _]. congruence.
  - destruct H as (_ & [Ht Htne] & [He Hene]).
    destruct Hk as [->|[->|Hk]]; [congruence|congruence|by apply elem_of_nil in Hk].
Qed.

Lemma empty_argument_dropped_witness :
  handleFunctionCall true (call_answerQuestion "¿Qué es X?" "") (sample_world true NetworkError)
  = (tt, sample_world true NetworkError).
Proof.
  apply (empty_argument_dropped true _ answerQuestionFunctionDeclaration "answer").
  - right. left.
  - reflexivity.
  - right. left.
  - reflexivity.
Defined.

(** ** The effect of each handler on the session *)

Lemma generate_host_frame t ns w :
  let h := host (generateSessionReportAndTitle t ns w).2 in
  getUserMedia_calls h = getUserMedia_calls (host w) ∧
  utterances h = utterances (host w) ∧
  (∃ sent, prompts h = prompts (host w) ++ sent ∧ length sent ≤ 1).
Proof.
  cbn zeta. destruct (String.eqb (trim t) "") eqn:Ht.
  - apply trim_eqb_whitespace_only in Ht. rewrite (generate_blank t ns w Ht). cbn.
    split; [done|]. split; [done|]. exists []. rewrite app_nil_r. split; [done | cbn; lia].
  - assert (Hb : ¬ whitespace_only t).
    { intros Hb. apply trim_eqb_whitespace_only in Hb. congruence. }
    rewrite (generate_not_blank t ns w Hb).
    destruct (generateContent_results (host w) (length (prompts (host w))))
      as [| |[|result]];
      [| | |destruct (truthy (result !! "title"))];
      (cbn; split; [done|]; split; [done|]; eexists [_]; split; [reflexivity | cbn; lia]).
Qed.

Lemma stopSession_state w :
  let w' := exec stopSession w in
  isListening (state w') = false ∧ transcription (state w') = "" ∧
  notes (state w') = [] ∧ activeAiResponse (state w') = None ∧
  isGeneratingReport (state w') = false ∧ refs w' = no_refs ∧
  timeLeft (state w') = timeLeft (state w) ∧ error (state w') = error (state w) ∧
  viewingSession (state w') = viewingSession (state w) ∧
  isVoiceResponseEnabled (state w') = isVoiceResponseEnabled (state w) ∧
  isContextualizeEnabled (state w') = isContextualizeEnabled (state w) ∧
  getUserMedia_calls (host w') = getUserMedia_calls (host w) ∧
  utterances (host w') = utterances (host w) ∧
  (∃ sent, prompts (host w') = prompts (host w) ++ sent ∧ length sent ≤ 1) ∧
  ∃ rec, sessionHistory (state w') = rec :: sessionHistory (state w) ∧
         SessionRecord.id rec = next_uuid w.
Proof.
  cbn zeta. destruct (stopSession_eq w) as (tr & h & Hgen & Hstop).
  destruct (generate_returns (transcription (state w))
              (notes (state w) ++ option_list (activeAiResponse (state w)))
              {| state := with_isGeneratingReport (λ _, true) (state w);
                 refs := refs w; host := host w |})
    as (tr' & h' & Hgen' & Hr & Hc & _).
  pose proof (generate_host_frame (transcription (state w))
              (notes (state w) ++ option_list (activeAiResponse (state w)))
              {| state := with_isGeneratingReport (λ _, true) (state w);
                 refs := refs w; host := host w |}) as (Hg & Hu & Hp).
  cbn zeta in Hgen. rewrite Hgen in Hgen', Hg, Hu, Hp. injection Hgen' as <- <-.
  cbn [host snd] in Hr, Hc, Hg, Hu, Hp.
  unfold exec. rewrite Hstop. cbn.
  do 11 (split; [reflexivity|]). split; [exact Hg|]. split; [exact Hu|]. split; [exact Hp|].
  eexists. split; [reflexivity|]. cbn. unfold next_uuid. by rewrite Hr, Hc.
Qed.

Lemma tick_eq w :
  exec tick w =
    if timerIntervalRef (refs w) then
      {| state := with_timeLeft (λ prev, (prev - 1)%Z) (state w);
         refs := refs w; host := host w |}
    else w.
Proof.
  unfold tick, exec, bind, getRefs. destruct (timerIntervalRef (refs w)); [reflexivity|].
  cbn. reflexivity.
Qed.

Lemma timeoutEffect_eq w :
  exec timeoutEffect w =
    if isListening (state w) && (timeLeft (state w) <=? 0)%Z then exec stopSession w else w.
Proof.
  unfold timeoutEffect. rewrite exec_bind. cbn [getApp fst].
  change (exec getApp w) with w.
  by destruct (isListening (state w) && (timeLeft (state w) <=? 0)%Z).
Qed.

Lemma step_TimerTick w :
  step TimerTick w = exec timeoutEffect (exec tick w).
Proof. cbn [step]. apply exec_seq. Qed.

Lemma handleArchiveNote_eq w :
  exec handleArchiveNote w =
    match activeAiResponse (state w) with
    | Some a =>
        {| state := with_activeAiResponse (λ _, None)
                      (with_notes (λ prev, prev ++ [a]) (state w));
           refs := refs w; host := host w |}
    | None => w
    end.
Proof.
  unfold handleArchiveNote, exec, bind, getApp.
  by destruct (activeAiResponse (state w)).
Qed.

(** ** Listening flag, handles, declared tools and countdown agree *)

Lemma fresh_mount_consistent w : fresh_mount w → session_consistent w.
Proof.
  intros [(Hl & _ & _ & Ht & _ & _ & Hg & _) Hr].
  split; [done|]. rewrite Hl. split; [done|]. rewrite Ht. unfold MAX_SESSION_TIME_SECONDS. lia.
Qed.

Lemma session_consistent_fields w w' :
  isListening (state w') = isListening (state w) →
  timeLeft (state w') = timeLeft (state w) →
  isGeneratingReport (state w') = isGeneratingReport (state w) →
  isContextualizeEnabled (state w') = isContextualizeEnabled (state w) →
  refs w' = refs w →
  session_consistent w → session_consistent w'.
Proof. unfold session_consistent. intros -> -> -> -> ->. auto. Qed.

Lemma session_consistent_ext w w' :
  same_session_fields (state w) (state w') → refs w' = refs w →
  session_consistent w → session_consistent w'.
Proof.
  intros (Hl & Ht & _ & Hg & _ & _ & _ & Hc) Hr. by apply session_consistent_fields.
Qed.

Lemma stopSession_consistent w :
  (0 ≤ timeLeft (state w) ≤ 600)%Z → session_consistent (exec stopSession w).
Proof.
  intros Ht. destruct (stopSession_state w) as (Hl & _ & _ & _ & Hg & Hr & Htl & _).
  split; [done|]. rewrite Hl, Htl. auto.
Qed.

Lemma step_consistent e w : session_consistent w → session_consistent (step e w).
Proof.
  intros HC. pose proof HC as [Hgen Hcase]. destruct e as [|m| | | |]; cbn [step].
  - destruct (isListening (state w)) eqn:Hl.
    + apply stopSession_consistent. lia.
    + unfold startSession. rewrite exec_seq.
      unfold exec at 1. rewrite startSession_acquire_eq.
      change (host (exec startSession_reset w)) with (host w).
      change (refs (exec startSession_reset w)) with (refs w).
      destruct (getUserMedia_results _ _); cbn [snd]; (split; [by cbn|]); cbn.
      * split; [|unfold MAX_SESSION_TIME_SECONDS; lia]. eexists. split; reflexivity.
      * destruct Hcase as [Hr _]. split; [done|unfold MAX_SESSION_TIME_SECONDS; lia].
  - destruct (sessionPromiseRef (refs w)) as [c|]; [|done].
    destruct (onMessage_untouched (onmessage_voice c) m w) as (F & R & _).
    by apply (session_consistent_ext w).
  - rewrite handleArchiveNote_eq. destruct (activeAiResponse (state w)); [|done].
    apply (session_consistent_ext w); [repeat split | done | done].
  - rewrite exec_seq, tick_eq.
    destruct (isListening (state w)) eqn:Hl.
    + destruct Hcase as [(c & Hr & Htools) Ht]. rewrite Hr.
      cbn [timerIntervalRef running_refs]. rewrite timeoutEffect_eq. cbn.
      rewrite Hl. cbn.
      destruct (Z.leb_spec (timeLeft (state w) - 1) 0).
      * apply stopSession_consistent. cbn. lia.
      * split; [by cbn|]. cbn. rewrite Hl. split; [|lia].
        exists c. done.
    + destruct Hcase as [Hr Ht]. rewrite Hr.
      cbn [timerIntervalRef no_refs]. rewrite timeoutEffect_eq, Hl. cbn.
      split; [done|]. by rewrite Hl.
  - unfold toggleContextualize, exec, bind, getApp.
    destruct (isListening (state w)) eqn:Hl; cbn; [done|].
    split; [by cbn|]. cbn. by rewrite Hl.
  - unfold toggleVoiceResponse, exec, bind, getApp. cbn.
    by apply (session_consistent_fields w).
Qed.

Lemma run_invariant (P : World → Prop) es w :
  (∀ e w, P w → P (step e w)) → P w → P (run es w).
Proof.
  intros Hstep. revert w. induction es as [|e es IH]; intros w Hw; [done|].
  cbn. apply IH, Hstep, Hw.
Qed.

Lemma reached_consistent w : reached w → session_consistent w.
Proof.
  intros (w0 & es & Hm & ->).
  apply run_invariant; [apply step_consistent | by apply fresh_mount_consistent].
Qed.

Lemma reached_reachable w : reached w → reachable w.
Proof. intros (w0 & es & [Hm _] & ->). by apply reachable_run, reachable_mounted. Qed.

Lemma sample_world_fresh_mount reply : fresh_mount (sample_world true reply).
Proof. split; [apply sample_world_mounted | reflexivity]. Qed.

Lemma sample_run_reached es reply : reached (run es (sample_world true reply)).
Proof. exists (sample_world true reply), es. split; [apply sample_world_fresh_mount | done]. Qed.





(** ** The countdown *)

Lemma tick_running w :
  session_consistent w → isListening (state w) = true → (1 < timeLeft (state w))%Z →
  step TimerTick w =
    {| state := with_timeLeft (λ prev, (prev - 1)%Z) (state w);
       refs := refs w; host := host w |}.
Proof.
  intros [_ Hcase] Hl Ht. rewrite Hl in Hcase. destruct Hcase as [(c & Hr & _) _].
  rewrite step_TimerTick, tick_eq, Hr. cbn [timerIntervalRef running_refs].
  rewrite timeoutEffect_eq. cbn. rewrite Hl. cbn.
  destruct (Z.leb_spec (timeLeft (state w) - 1) 0); [lia | done].
Qed.

Lemma tick_expires w :
  session_consistent w → isListening (state w) = true → timeLeft (state w) = 1%Z →
  step TimerTick w =
    exec stopSession
      {| state := with_timeLeft (λ _, 0%Z) (state w); refs := refs w; host := host w |}.
Proof.
  intros [_ Hcase] Hl Ht. rewrite Hl in Hcase. destruct Hcase as [(c & Hr & _) _].
  rewrite step_TimerTick, tick_eq, Hr. cbn [timerIntervalRef running_refs].
  rewrite timeoutEffect_eq. cbn. rewrite Hl, Ht. cbn.
  unfold with_timeLeft. rewrite Ht. reflexivity.
Qed.

Lemma tick_idle w :
  session_consistent w → isListening (state w) = false → step TimerTick w = w.
Proof.
  intros [_ Hcase] Hl. rewrite Hl in Hcase. destruct Hcase as [Hr _].
  rewrite step_TimerTick, tick_eq, Hr. cbn [timerIntervalRef no_refs].
  rewrite timeoutEffect_eq, Hl. done.
Qed.

Lemma run_cons e es w : run (e :: es) w = run es (step e w).
Proof. reflexivity. Qed.

Lemma run_app es1 es2 w : run (es1 ++ es2) w = run es2 (run es1 w).
Proof. apply fold_left_app. Qed.

Lemma ticks_idle n w :
  session_consistent w → isListening (state w) = false → run (repeat TimerTick n) w = w.
Proof.
  intros HC Hl. induction n as [|n IH]; [done|].
  cbn [repeat]. rewrite run_cons, (tick_idle w HC Hl). apply IH.
Qed.

Lemma ticks_running n w :
  session_consistent w → isListening (state w) = true →
  (Z.of_nat n < timeLeft (state w))%Z →
  run (repeat TimerTick n) w =
    {| state := with_timeLeft (λ _, (timeLeft (state w) - Z.of_nat n)%Z) (state w);
       refs := refs w; host := host w |}.
Proof.
  revert w. induction n as [|n IH]; intros w HC Hl Ht.
  - cbn [repeat Z.of_nat]. rewrite Z.sub_0_r. by destruct w as [[] r h].
  - cbn [repeat]. rewrite run_cons, (tick_running w HC Hl) by lia.
    pose proof (step_consistent TimerTick w HC) as HC'.
    rewrite (tick_running w HC Hl) in HC' by lia.
    rewrite IH; [|done|done|cbn; lia].
    replace (timeLeft (state w) - Z.of_nat (S n))%Z
      with (timeLeft (state w) - 1 - Z.of_nat n)%Z by lia.
    reflexivity.
Qed.

(** X8: while a session is listening, [n] ticks of the timer with [n]
    below the countdown only lower the countdown by [n]; from the tick
    that brings it to zero on, whatever the number of further ticks,
    the world is the one [stopSession] leaves when run once at zero:
    the timeout ends the session exactly once. *)
Theorem countdown_expires_once w n :
  reached w →
  isListening (state w) = true →
  let w' := run (repeat TimerTick n) w in
  ((Z.of_nat n < timeLeft (state w))%Z →
     w' = {| state := with_timeLeft (λ _, (timeLeft (state w) - Z.of_nat n)%Z) (state w);
             refs := refs w; host := host w |}) ∧
  ((timeLeft (state w) ≤ Z.of_nat n)%Z →
     w' = exec stopSession
            {| state := with_timeLeft (λ _, 0%Z) (state w);
               refs := refs w; host := host w |}).
Proof.
  intros Hr Hl. cbn zeta. pose proof (reached_consistent w Hr) as HC.
  split; [by apply ticks_running|].
  intros Hn. pose proof HC as [_ Hcase]. rewrite Hl in Hcase. destruct Hcase as [_ Ht].
  set (k := Z.to_nat (timeLeft (state w) - 1)).
  replace n with (k + S (n - S k)) by lia.
  rewrite repeat_app, run_app.
  rewrite (ticks_running k w HC Hl) by lia.
  set (w1 := {| state := with_timeLeft (λ _, (timeLeft (state w) - Z.of_nat k)%Z) (state w);
                refs := refs w; host := host w |}).
  assert (HC1 : session_consistent w1).
  { unfold w1. rewrite <- (ticks_running k w HC Hl) by lia.
    apply run_invariant; [apply step_consistent | done]. }
  cbn [repeat]. rewrite run_cons.
  rewrite (tick_expires w1 HC1); [|done|cbn; lia].
  set (w2 := exec stopSession _).
  assert (HC2 : session_consistent w2) by (apply stopSession_consistent; cbn; lia).
  assert (Hl2 : isListening (state w2) = false) by apply stopSession_state.
  by rewrite (ticks_idle _ w2 HC2 Hl2).
Qed.

Lemma countdown_expires_once_witness :
  let w := run [ClickMainButton; Message (transcript_delta "Hola")]
             (sample_world true NetworkError) in
  isListening (state (run (repeat TimerTick 599) w)) = true ∧
  timeLeft (state (run (repeat TimerTick 599) w)) = 1%Z ∧
  length (sessionHistory (state (run (repeat TimerTick 700) w))) = 1.
Proof.
  cbn zeta.
  set (w := run [ClickMainButton; Message (transcript_delta "Hola")]
              (sample_world true NetworkError)).
  assert (Hr : reached w) by apply sample_run_reached.
  assert (Hl : isListening (state w) = true) by reflexivity.
  rewrite (proj1 (countdown_expires_once w 599 Hr Hl)) by (vm_compute; reflexivity).
  rewrite (proj2 (countdown_expires_once w 700 Hr Hl)) by (vm_compute; discriminate).
  repeat split; vm_compute; reflexivity.
Defined.

(** ** The history *)

Lemma startSession_history w :
  sessionHistory (state (exec startSession w)) = sessionHistory (state w) ∧
  randomUUID_calls (host (exec startSession w)) = randomUUID_calls (host w).
Proof.
  unfold startSession. rewrite exec_seq. unfold exec at 1 3.
  rewrite startSession_acquire_eq. by destruct (getUserMedia_results _ _).
Qed.

(** An event adds no record, or one that carries the identifier
    drawn next. *)
Lemma step_history e w :
  sessionHistory (state (step e w)) = sessionHistory (state w) ∨
  ∃ rec, sessionHistory (state (step e w)) = rec :: sessionHistory (state w) ∧
         SessionRecord.id rec = next_uuid w.
Proof.
  destruct e as [|m| | | |]; cbn [step].
  - destruct (isListening (state w)).
    + right. apply stopSession_state.
    + left. apply startSession_history.
  - left. destruct (sessionPromiseRef (refs w)) as [c|]; [|done].
    destruct (onMessage_untouched (onmessage_voice c) m w) as ((_&_&_&_&H&_) & _). exact H.
  - left. rewrite handleArchiveNote_eq. by destruct (activeAiResponse (state w)).
  - rewrite exec_seq, tick_eq, timeoutEffect_eq.
    destruct (timerIntervalRef (refs w)).
    + destruct (isListening _ && _); [|by left]. right.
      destruct (stopSession_state
                  {| state := with_timeLeft (λ prev, (prev - 1)%Z) (state w);
                     refs := refs w; host := host w |})
        as (_&_&_&_&_&_&_&_&_&_&_&_&_&_&H). exact H.
    + destruct (isListening _ && _); [|by left]. right. apply stopSession_state.
  - left. unfold toggleContextualize, exec, bind, getApp.
    by destruct (isListening (state w)).
  - by left.
Qed.

(** X9: the history only grows at its front: after any sequence of
    events, from any world, the records that were there are still
    there, unchanged and in the same order, behind at most one new
    record per event. *)
Theorem history_only_prepended es w :
  ∃ new, sessionHistory (state (run es w)) = new ++ sessionHistory (state w) ∧
         length new ≤ length es.
Proof.
  revert w. induction es as [|e es IH]; intros w.
  - exists []. split; [done | cbn; lia].
  - rewrite run_cons.
    destruct (IH (step e w)) as (new & Hnew & Hlen). rewrite Hnew.
    destruct (step_history e w) as [->|(rec & -> & _)].
    + exists new. split; [done | cbn; lia].
    + exists (new ++ [rec]). rewrite <- app_assoc. split; [done|].
      rewrite length_app. cbn. lia.
Qed.

Lemma step_Inv_history e w :
  Inv w ∧ NoDup (map SessionRecord.id (sessionHistory (state w))) →
  Inv (step e w) ∧ NoDup (map SessionRecord.id (sessionHistory (state (step e w)))).
Proof.
  intros [HI Hnd]. split; [by apply step_Inv|].
  destruct (step_history e w) as [->|(rec & -> & Hid)]; [done|].
  cbn. apply NoDup_cons. split; [|done]. rewrite Hid.
  destruct HI as [Hf _]. pose proof (next_uuid_fresh w Hf) as Hnew.
  unfold known_ids in Hnew. apply not_elem_of_app in Hnew. tauto.
Qed.

(** X10: if the records found at mounting have pairwise distinct
    identifiers, then after any sequence of events the records of the
    history still have, and so do the notes of the live session
    (archived and active). *)
Theorem identifiers_stay_distinct w0 es :
  mounted w0 →
  NoDup (map SessionRecord.id (sessionHistory (state w0))) →
  let w := run es w0 in
  NoDup (map SessionRecord.id (sessionHistory (state w))) ∧
  NoDup (map Note.id (notes (state w) ++ option_list (activeAiResponse (state w)))).
Proof.
  intros Hm Hnd. cbn zeta.
  assert (H : Inv (run es w0) ∧
              NoDup (map SessionRecord.id (sessionHistory (state (run es w0))))).
  { apply (run_invariant (λ w, Inv w ∧ NoDup (map SessionRecord.id (sessionHistory (state w))))).
    - apply step_Inv_history.
    - split; [by apply mounted_Inv | done]. }
  destruct H as [[_ Hnotes] Hhist]. split; [done|]. exact Hnotes.
Qed.

Lemma identifiers_stay_distinct_witness :
  let w := run [ClickMainButton; Message (tool_call [call_addNote "repasar"]);
                ClickMainButton; ClickMainButton;
                Message (tool_call [call_answerQuestion "¿Qué es X?" "Y"]); ClickMainButton]
             (sample_world true NetworkError) in
  NoDup (map SessionRecord.id (sessionHistory (state w))) ∧
  NoDup (map Note.id (notes (state w) ++ option_list (activeAiResponse (state w)))).
Proof.
  cbn zeta. apply identifiers_stay_distinct.
  - apply sample_world_mounted.
  - constructor.
Defined.

(** ** Archiving *)

(** Finalize reads nothing of the React state or the handles. *)
Lemma generate_state_irrelevant t ns s r s' r' h :
  (generateSessionReportAndTitle t ns {| state := s; refs := r; host := h |}).1 =
  (generateSessionReportAndTitle t ns {| state := s'; refs := r'; host := h |}).1 ∧
  host (generateSessionReportAndTitle t ns {| state := s; refs := r; host := h |}).2 =
  host (generateSessionReportAndTitle t ns {| state := s'; refs := r'; host := h |}).2.
Proof.
  destruct (String.eqb (trim t) "") eqn:Ht.
  - apply trim_eqb_whitespace_only in Ht. by rewrite !(generate_blank t ns _ Ht).
  - assert (Hb : ¬ whitespace_only t).
    { intros Hb. apply trim_eqb_whitespace_only in Hb. congruence. }
    rewrite !(generate_not_blank t ns _ Hb). cbn.
    destruct (generateContent_results h (length (prompts h))) as [| |[|result]];
      [done|done|done|]. by destruct (truthy (result !! "title")).
Qed.

(** X11: archiving the active note and then archiving again is the
    same as archiving once; with no active note it changes nothing;
    and the notes a finalize would collect (archived, then active) are
    the same before and after. *)
Theorem handleArchiveNote_idempotent w :
  let w' := exec handleArchiveNote w in
  exec handleArchiveNote w' = w' ∧
  (activeAiResponse (state w) = None → w' = w) ∧
  activeAiResponse (state w') = None ∧
  notes (state w') = notes (state w) ++ option_list (activeAiResponse (state w)) ∧
  transcription (state w') = transcription (state w).
Proof.
  cbn zeta. rewrite !handleArchiveNote_eq.
  destruct (activeAiResponse (state w)) as [a|] eqn:Ha; cbn.
  - repeat split; congruence.
  - rewrite Ha, app_nil_r. auto.
Qed.

(** X12: archiving the active note just before the session is stopped
    changes nothing of the outcome: the same record is added and the
    same world results as when stopping with the note still active. *)
Theorem archive_then_stop w :
  exec stopSession (exec handleArchiveNote w) = exec stopSession w.
Proof.
  rewrite handleArchiveNote_eq.
  destruct (activeAiResponse (state w)) as [a|] eqn:Ha; [|done].
  set (wa := {| state := with_activeAiResponse (λ _, None)
                           (with_notes (λ prev, prev ++ [a]) (state w));
                refs := refs w; host := host w |}).
  destruct (stopSession_eq w) as (tr & h & Hgen & Hstop).
  destruct (stopSession_eq wa) as (tr' & h' & Hgen' & Hstop').
  cbn zeta in Hgen, Hgen'. unfold exec. rewrite Hstop, Hstop'. clear Hstop Hstop'.
  unfold wa in Hgen'. cbn [state refs host notes activeAiResponse transcription
    with_activeAiResponse with_notes option_list] in Hgen'.
  rewrite Ha in Hgen. change (option_list (Some a)) with [a] in Hgen.
  rewrite app_nil_r in Hgen'.
  match type of Hgen with
  | generateSessionReportAndTitle ?t ?ns {| state := ?s; refs := ?r; host := ?h0 |} = _ =>
    match type of Hgen' with
    | generateSessionReportAndTitle _ _ {| state := ?s'; refs := ?r'; host := _ |} = _ =>
      destruct (generate_state_irrelevant t ns s r s' r' h0) as [E1 E2]
    end
  end.
  rewrite Hgen, Hgen' in E1, E2. cbn in E1, E2. injection E1 as <-. subst h'.
  unfold wa. cbn. rewrite Ha. cbn. rewrite app_nil_r. reflexivity.
Qed.

(** ** Stopping *)



(** ** What is asked of the environment, and when *)

(** X14: the microphone is asked for by a press of the main button
    while not listening, once, and by nothing else: no other event,
    and no stop, calls [getUserMedia]. *)
Theorem getUserMedia_only_on_start e w :
  getUserMedia_calls (host (step e w)) =
    getUserMedia_calls (host w) +
    match e with
    | ClickMainButton => if isListening (state w) then 0 else 1
    | _ => 0
    end.
Proof.
  destruct e as [|m| | | |]; cbn [step].
  - destruct (isListening (state w)).
    + destruct (stopSession_state w) as (_&_&_&_&_&_&_&_&_&_&_&H&_). lia.
    + unfold startSession. rewrite exec_seq. unfold exec at 1.
      rewrite startSession_acquire_eq.
      change (host (exec startSession_reset w)) with (host w).
      destruct (getUserMedia_results _ _); cbn; lia.
  - destruct (sessionPromiseRef (refs w)) as [c|]; [|lia].
    destruct (onMessage_untouched (onmessage_voice c) m w) as (_&_&_&_&H). lia.
  - rewrite handleArchiveNote_eq. destruct (activeAiResponse (state w)); cbn; lia.
  - rewrite exec_seq, tick_eq, timeoutEffect_eq.
    destruct (timerIntervalRef (refs w)).
    + destruct (isListening _ && _); [|cbn; lia].
      destruct (stopSession_state
                  {| state := with_timeLeft (λ prev, (prev - 1)%Z) (state w);
                     refs := refs w; host := host w |})
        as (_&_&_&_&_&_&_&_&_&_&_&H&_). cbn in H. lia.
    + destruct (isListening _ && _); [|lia].
      destruct (stopSession_state w) as (_&_&_&_&_&_&_&_&_&_&_&H&_). lia.
  - unfold toggleContextualize, exec, bind, getApp.
    destruct (isListening (state w)); cbn; lia.
  - cbn. lia.
Qed.




(** ** A refused microphone *)

(** X16: when the microphone is refused, the press of the main button
    leaves the component not listening, with the message "No se pudo
    acceder al micrófono.", no handle acquired, and the session state
    empty. *)
Theorem microphone_refused w :
  isListening (state w) = false →
  getUserMedia_results (host w) (getUserMedia_calls (host w)) = false →
  let w' := step ClickMainButton w in
  isListening (state w') = false ∧
  error (state w') = Some "No se pudo acceder al micrófono." ∧
  refs w' = refs w ∧
  transcription (state w') = "" ∧ notes (state w') = [] ∧
  activeAiResponse (state w') = None ∧
  sessionHistory (state w') = sessionHistory (state w) ∧
  randomUUID_calls (host w') = randomUUID_calls (host w) ∧
  prompts (host w') = prompts (host w).
Proof.
  intros Hl Hg. cbn [step]. rewrite Hl. cbn zeta.
  unfold startSession. rewrite exec_seq. unfold exec at 1 3 5 7 9 11 13 15 17.
  rewrite startSession_acquire_eq.
  change (host (exec startSession_reset w)) with (host w). rewrite Hg.
  repeat split.
Qed.

Lemma microphone_refused_witness :
  error (state (step ClickMainButton refusing_world)) =
    Some "No se pudo acceder al micrófono." ∧
  refs (step ClickMainButton refusing_world) = no_refs.
Proof.
  destruct (microphone_refused refusing_world) as (_ & H2 & H3 & _); [reflexivity..|].
  split; [exact H2 | exact H3].
Defined.

(** ** The tabs of a stored session *)

(** X17: the two note tabs of a stored session split its notes: the
    question tab holds exactly the qa notes and the key-notes tab
    exactly the tip and context notes, each in the order of the
    record, so every note is in one tab and none in both. *)
Theorem history_tabs_split_notes r :
  length (filteredQA r) + length (filteredNotes r) = length (SessionRecord.notes r) ∧
  (∀ n, n ∈ filteredQA r ↔ n ∈ SessionRecord.notes r ∧ Note.type n = qa) ∧
  (∀ n, n ∈ filteredNotes r ↔ n ∈ SessionRecord.notes r ∧ Note.type n ≠ qa) ∧
  filteredQA r `sublist_of` SessionRecord.notes r ∧
  filteredNotes r `sublist_of` SessionRecord.notes r.
Proof.
  unfold filteredQA, filteredNotes. generalize (SessionRecord.notes r). intros l.
  split; [|split; [|split; [|split]]].
  - induction l as [|n l IH]; [done|]. cbn. destruct (Note.type n); cbn; lia.
  - intros n. rewrite list_elem_of_In, filter_In, <- list_elem_of_In.
    destruct (Note.type n); intuition congruence.
  - intros n. rewrite list_elem_of_In, filter_In, <- list_elem_of_In.
    destruct (Note.type n); intuition congruence.
  - induction l as [|n l IH]; [done|]. cbn.
    destruct (Note.type n); by constructor.
  - induction l as [|n l IH]; [done|]. cbn.
    destruct (Note.type n); by constructor.
Qed.

(** ** Outside a session the session state is empty *)

Lemma startSession_empty w :
  transcription (state (exec startSession w)) = "" ∧
  notes (state (exec startSession w)) = [] ∧
  activeAiResponse (state (exec startSession w)) = None.
Proof.
  unfold startSession. rewrite exec_seq. unfold exec at 1 3 5.
  rewrite startSession_acquire_eq. by destruct (getUserMedia_results _ _).
Qed.





(** ** The report as HTML *)

Lemma report_html_app s1 s2 :
  report_html (s1 +:+ s2) = report_html s1 +:+ report_html s2.
Proof.
  induction s1 as [|c s1 IH]; [done|].
  change (String c s1 +:+ s2) with (String c (s1 +:+ s2)). cbn [report_html].
  rewrite IH. by destruct (Ascii.eqb c (ascii_of_nat 10)).
Qed.

Lemma count_LF_app s1 s2 : count_LF (s1 +:+ s2) = count_LF s1 + count_LF s2.
Proof.
  induction s1 as [|c s1 IH]; [done|].
  change (String c s1 +:+ s2) with (String c (s1 +:+ s2)). cbn [count_LF].
  rewrite IH. lia.
Qed.

(** X19: the report is turned into HTML by replacing every line feed
    by a break tag and nothing else: the result has no line feed, is
    six bytes long per line feed plus one per other byte, is built
    piecewise, and a report without line feed is passed on verbatim,
    markup included. *)
Theorem report_html_only_replaces_line_feeds s :
  count_LF (report_html s) = 0 ∧
  String.length (report_html s) = String.length s + 5 * count_LF s ∧
  (count_LF s = 0 → report_html s = s) ∧
  (∀ s', report_html (s +:+ s') = report_html s +:+ report_html s').
Proof.
  split; [|split; [|split]].
  - induction s as [|c s IH]; [done|]. cbn [report_html].
    destruct (Ascii.eqb c (ascii_of_nat 10)) eqn:Hc.
    + rewrite count_LF_app, IH. reflexivity.
    + cbn [count_LF]. by rewrite Hc, IH.
  - induction s as [|c s IH]; [done|]. cbn [report_html count_LF String.length].
    destruct (Ascii.eqb c (ascii_of_nat 10)).
    + change (String.length ("<br />" +:+ report_html s))
        with (6 + String.length (report_html s)). lia.
    + cbn [String.length]. lia.
  - induction s as [|c s IH]; [done|]. cbn [report_html count_LF].
    destruct (Ascii.eqb c (ascii_of_nat 10)); [discriminate|].
    intros H. by rewrite IH.
  - intros s'. apply report_html_app.
Qed.

(** ** Note cards *)

Lemma isExpanded_toggle_same p n m :
  Note.id m = Note.id n → isExpanded (toggleExpanded n p) m = negb (isExpanded p m).
Proof.
  intros Hid. unfold isExpanded, toggleExpanded. rewrite Hid, lookup_insert_eq. done.
Qed.

Lemma isExpanded_toggle_other p n m :
  Note.id m ≠ Note.id n → isExpanded (toggleExpanded n p) m = isExpanded p m.
Proof.
  intros Hid. unfold isExpanded, toggleExpanded. by rewrite lookup_insert_ne.
Qed.

Lemma renderNote_isExpanded p q m arch :
  isExpanded p m = isExpanded q m → renderNote p m arch = renderNote q m arch.
Proof. unfold renderNote. by intros ->. Qed.

Lemma renderNote_toggle_other p n m arch :
  Note.id m ≠ Note.id n → renderNote (toggleExpanded n p) m arch = renderNote p m arch.
Proof. intros Hid. apply renderNote_isExpanded. by apply isExpanded_toggle_other. Qed.

(** X20: pressing the button of a card twice shows every card as it
    was before, and pressing it once changes no card whose identifier
    differs from the one pressed. *)
Theorem toggle_note_card p n m arch :
  renderNote (toggleExpanded n (toggleExpanded n p)) m arch = renderNote p m arch ∧
  (Note.id m ≠ Note.id n → renderNote (toggleExpanded n p) m arch = renderNote p m arch).
Proof.
  split; [|apply renderNote_toggle_other].
  apply renderNote_isExpanded.
  destruct (decide (Note.id m = Note.id n)) as [Hid|Hid].
  - rewrite !isExpanded_toggle_same by done. apply negb_involutive.
  - by rewrite !isExpanded_toggle_other.
Qed.

(** X21: in the live view, where cards are rendered as not archived,
    no card has a button and the content of a qa or context note is
    always shown, whatever cards were expanded in the history view; in
    the history view a qa or context card shows its content exactly
    when it is expanded, and a tip card never has a button. *)
Theorem note_card_content p m :
  rn_button (renderNote p m false) = None ∧
  rn_body (renderNote p m false) =
    match Note.type m with tip => None | _ => Some (Note.content m) end ∧
  rn_body (renderNote p m true) =
    match Note.type m with
    | tip => None
    | _ => if isExpanded p m then Some (Note.content m) else None
    end ∧
  (Note.type m = tip → rn_button (renderNote p m true) = None ∧
                        rn_heading (renderNote p m true) = Some (Note.content m)).
Proof.
  unfold renderNote. destruct (Note.type m); cbn; repeat split; done.
Qed.

Lemma NoDup_map_eq {A B} (f : A → B) (l : list A) x y :
  NoDup (map f l) → x ∈ l → y ∈ l → f x = f y → x = y.
Proof.
  induction l as [|a l IH]; cbn; intros Hnd Hx Hy Hf.
  - by apply elem_of_nil in Hx.
  - apply NoDup_cons in Hnd as [Ha Hnd].
    apply elem_of_cons in Hx as [->|Hx]; apply elem_of_cons in Hy as [->|Hy]; auto.
    + destruct Ha. rewrite Hf. apply list_elem_of_In, in_map, list_elem_of_In, Hy.
    + destruct Ha. rewrite <- Hf. apply list_elem_of_In, in_map, list_elem_of_In, Hx.
Qed.

(** X22: in the history view of a session the component has recorded,
    expanding or collapsing one card leaves every other card of that
    session as it was: the notes of a recorded session have pairwise
    distinct identifiers. *)
Theorem recorded_cards_independent w rec rest p n m :
  reachable w →
  sessionHistory (state (exec stopSession w)) = rec :: rest →
  n ∈ SessionRecord.notes rec →
  m ∈ SessionRecord.notes rec →
  n ≠ m →
  NoDup (map Note.id (SessionRecord.notes rec)) ∧
  renderNote (toggleExpanded n p) m true = renderNote p m true.
Proof.
  intros Hr Hhist Hn Hm Hne.
  destruct (reachable_Inv w Hr) as [_ Hnd].
  destruct (stopSession_eq w) as (tr & h & _ & Hstop).
  unfold exec in Hhist. rewrite Hstop in Hhist. cbn in Hhist.
  injection Hhist as <- _. cbn in Hn, Hm |- *.
  unfold note_ids in Hnd. split; [exact Hnd|].
  apply renderNote_toggle_other. intros Hid. apply Hne. symmetry.
  by apply (NoDup_map_eq Note.id _ m n Hnd).
Qed.

Lemma recorded_cards_independent_witness :
  let w := run [ClickMainButton;
                Message (tool_call [call_answerQuestion "¿Qué es X?" "Y"]); ArchiveNote;
                Message (tool_call [call_provideContext "Sepsis" "Respuesta desregulada"])]
             (sample_world true NetworkError) in
  let n := Note.mk "0" qa "Y" (Some "¿Qué es X?") None in
  let m := Note.mk "1" context "Respuesta desregulada" None (Some "Sepsis") in
  renderNote (toggleExpanded n ∅) m true = renderNote ∅ m true.
Proof.
  cbn zeta.
  refine (proj2 (recorded_cards_independent
    (run [ClickMainButton;
          Message (tool_call [call_answerQuestion "¿Qué es X?" "Y"]); ArchiveNote;
          Message (tool_call [call_provideContext "Sepsis" "Respuesta desregulada"])]
       (sample_world true NetworkError))
    _ _ ∅ _ _ _ _ _ _ _)).
  - apply reachable_run, reachable_mounted, sample_world_mounted.
  - vm_compute. reflexivity.
  - left.
  - right. left.
  - discriminate.
Defined.

(** ** Notes are only added, and are well formed *)

Lemma handleFunctionCall_notes voice fc w :
  let w' := exec (handleFunctionCall voice fc) w in
  (∃ new, notes (state w') = notes (state w) ++ new ∧
          Forall (λ n, Note.type n = tip) new) ∧
  (well_formed_notes w → well_formed_notes w').
Proof.
  cbn zeta. unfold well_formed_notes.
  destruct (handle_cases voice fc) as [[t H]|[(q & a & H)|[(t & e & H)|H]]]; unfold exec.
  - rewrite (handle_addNote voice fc t w H). cbn. split.
    + eexists [_]. split; [done|]. by repeat constructor.
    + intros [Hn Ha]. split; [|done]. apply Forall_app. split; [done|].
      constructor; [|constructor]. destruct H as (_ & _ & Ht). by split.
  - rewrite (handle_answerQuestion voice fc q a w H). cbn. split.
    + exists []. rewrite app_nil_r. by split.
    + intros [Hn _]. split; [done|]. intros ? [= <-].
      destruct H as (_ & [_ Hq] & [_ Ha]). split; [|done]. split; [done|]. cbn. eauto.
  - rewrite (handle_provideContext voice fc t e w H). cbn. split.
    + exists []. rewrite app_nil_r. by split.
    + intros [Hn _]. split; [done|]. intros ? [= <-].
      destruct H as (_ & [_ Ht] & [_ He]). split; [|done]. split; [done|]. cbn. eauto.
  - rewrite H. cbn. split; [|done]. exists []. rewrite app_nil_r. by split.
Qed.

Lemma forEach_notes voice fcs w :
  let w' := exec (forEach fcs (handleFunctionCall voice)) w in
  (∃ new, notes (state w') = notes (state w) ++ new ∧
          Forall (λ n, Note.type n = tip) new) ∧
  (well_formed_notes w → well_formed_notes w').
Proof.
  cbn zeta. revert w. induction fcs as [|fc fcs IH]; intros w.
  - cbn. split; [|done]. exists []. rewrite app_nil_r. by split.
  - cbn [forEach]. rewrite exec_seq.
    destruct (handleFunctionCall_notes voice fc w) as [(n1 & E1 & T1) W1].
    destruct (IH (exec (handleFunctionCall voice fc) w)) as [(n2 & E2 & T2) W2].
    split; [|auto]. exists (n1 ++ n2). rewrite E2, E1, <- app_assoc. split; [done|].
    by apply Forall_app.
Qed.

(** X23: a message never removes, changes or reorders an archived
    note: the archived notes afterwards are the ones before, followed
    by the notes the message adds, all of them tips. *)
Theorem onMessage_only_appends_tips voice m w :
  ∃ new, notes (state (exec (onMessage voice m) w)) = notes (state w) ++ new ∧
         Forall (λ n, Note.type n = tip) new.
Proof.
  destruct (onMessage_calls voice m w) as [f Hf]. unfold exec. rewrite Hf.
  apply (forEach_notes voice (calls_of m)
           {| state := with_transcription f (state w); refs := refs w; host := host w |}).
Qed.

Lemma step_well_formed e w : well_formed_notes w → well_formed_notes (step e w).
Proof.
  intros HW. destruct e as [|m| | | |]; cbn [step].
  - destruct (isListening (state w)).
    + destruct (stopSession_state w) as (_ & _ & Hn & Ha & _).
      unfold well_formed_notes. rewrite Hn, Ha. split; [constructor | discriminate].
    + destruct (startSession_empty w) as (_ & Hn & Ha).
      unfold well_formed_notes. rewrite Hn, Ha. split; [constructor | discriminate].
  - destruct (sessionPromiseRef (refs w)) as [c|]; [|done].
    destruct (onMessage_calls (onmessage_voice c) m w) as [f Hf]. unfold exec. rewrite Hf.
    by apply (forEach_notes (onmessage_voice c) (calls_of m)
                {| state := with_transcription f (state w); refs := refs w; host := host w |}).
  - rewrite handleArchiveNote_eq. destruct HW as [Hn Ha].
    destruct (activeAiResponse (state w)) as [a|] eqn:Hact; [|by split; [|rewrite Hact]].
    split; [|discriminate]. cbn. apply Forall_app. split; [done|].
    constructor; [|constructor]. by apply Ha.
  - rewrite exec_seq, tick_eq, timeoutEffect_eq.
    assert (Hstop : ∀ w1, well_formed_notes (exec stopSession w1)).
    { intros w1. destruct (stopSession_state w1) as (_ & _ & Hn & Ha & _).
      unfold well_formed_notes. rewrite Hn, Ha. split; [constructor | discriminate]. }
    destruct (timerIntervalRef (refs w)); destruct (isListening _ && _); auto.
  - unfold toggleContextualize, exec, bind, getApp.
    by destruct (isListening (state w)).
  - done.
Qed.

(** X24: in every reachable world each note, archived or active, has
    a content that is not empty; a qa note has a non-empty question
    and no topic, a context note a non-empty topic and no question, a
    tip neither; and the active note is never a tip. *)
Theorem notes_well_formed w :
  reachable w →
  Forall well_formed_note (notes (state w)) ∧
  ∀ a, activeAiResponse (state w) = Some a → well_formed_note a ∧ Note.type a ≠ tip.
Proof.
  induction 1 as [w Hm|e w _ IH]; [|by apply step_well_formed].
  destruct Hm as (_ & _ & Hn & _ & _ & Ha & _). rewrite Hn, Ha.
  split; [constructor | discriminate].
Qed.

Lemma notes_well_formed_witness :
  let w := run [ClickMainButton;
                Message (tool_call [call_answerQuestion "¿Qué es X?" "Y"; call_addNote "repasar"]);
                ArchiveNote]
             (sample_world true NetworkError) in
  Forall well_formed_note (notes (state w)).
Proof.
  cbn zeta. refine (proj1 (notes_well_formed _ _)).
  apply reachable_run, reachable_mounted, sample_world_mounted.
Defined.

(** ** Requests and records go together *)

Lemma cons_neq {A} (x : A) l : x :: l ≠ l.
Proof. intros H. apply (f_equal length) in H. cbn in H. lia. Qed.

(** X25: an event that adds no record to the history sends no
    summarisation request and does not read the clock. *)
Theorem no_record_no_request e w :
  sessionHistory (state (step e w)) = sessionHistory (state w) →
  prompts (host (step e w)) = prompts (host w) ∧
  Date_calls (host (step e w)) = Date_calls (host w).
Proof.
  assert (Hstop : ∀ w1, sessionHistory (state (exec stopSession w1)) ≠ sessionHistory (state w1)).
  { intros w1. destruct (stopSession_state w1) as (_&_&_&_&_&_&_&_&_&_&_&_&_&_&rec&Hr&_).
    rewrite Hr. apply cons_neq. }
  destruct e as [|m| | | |]; cbn [step].
  - destruct (isListening (state w)).
    + intros H. by destruct (Hstop w).
    + intros _. unfold startSession. rewrite exec_seq. unfold exec at 1 3.
      rewrite startSession_acquire_eq. by destruct (getUserMedia_results _ _).
  - intros _. destruct (sessionPromiseRef (refs w)) as [c|]; [|done].
    destruct (onMessage_untouched (onmessage_voice c) m w) as (_ & _ & H1 & H2 & _). done.
  - intros _. rewrite handleArchiveNote_eq. by destruct (activeAiResponse (state w)).
  - rewrite exec_seq, tick_eq, timeoutEffect_eq.
    destruct (timerIntervalRef (refs w)).
    + destruct (isListening _ && _); [|done]. intros H.
      by destruct (Hstop {| state := with_timeLeft (λ prev, (prev - 1)%Z) (state w);
                            refs := refs w; host := host w |}).
    + destruct (isListening _ && _); [|done]. intros H. by destruct (Hstop w).
  - intros _. unfold toggleContextualize, exec, bind, getApp.
    by destruct (isListening (state w)).
  - done.
Qed.

Lemma no_record_no_request_witness :
  let w := run [ClickMainButton] (sample_world true NetworkError) in
  prompts (host (step (Message (transcript_delta "Hola")) w)) = prompts (host w).
Proof.
  cbn zeta. refine (proj1 (no_record_no_request _ _ _)). reflexivity.
Defined.
